(** * Browser-as-a-Service session registry

    A shallow embedding of [src/api/browser-manager.js] (the
    [BrowserManager] class) and of the [POST /sessions] handler of the
    HTTP front end, followed by theorems about session bookkeeping.

    Conventions of the embedding:
    - the [Map] held in [this.sessions] is modelled as ECMAScript describes
      it: a list of entries in insertion order in which a deleted entry
      stays behind as an empty slot, so that iteration by position while
      entries are being deleted (as [cleanup] does) can be expressed;
    - every [async] method is cut at its [await]: the part that runs up to
      the call into Playwright, and the part that runs once the awaited
      promise has settled.  The plain name ([createSession], [killSession],
      [cleanup]) is the composition in which nothing else runs in between;
    - what Playwright, the clock and the id generator answer is an input:
      [settled server_handle] for [chromium.launchServer], [settled unit]
      for [server.close()], a string for [new Date().toISOString()] and
      for [nanoid(16)];
    - requests served while a call is waiting are histories of [action]s,
      the two resumptions that write the store;
    - calls to the outside world are recorded, in order, as a list of
      [effect]s. *)

From Stdlib Require Import String Ascii List ZArith Lia Bool Arith DecimalString.
Import ListNotations.

Local Open Scope string_scope.
Local Open Scope list_scope.

(** ** The ECMAScript [Map] with string keys *)

Module JsMap.
Section MapData.
Context {V : Type}.

(** One record of [[MapData]]; [None] is the "empty" marker a deleted
    entry is overwritten with. *)
Definition entry : Type := option (string * V).
Definition t : Type := list entry.

Definition empty : t := [].

(** [Map.prototype.get]: the value of the first non-empty entry whose key
    is [key], [None] standing for [undefined]. *)
Fixpoint get (key : string) (m : t) : option V :=
  match m with
  | [] => None
  | Some (k, v) :: rest => if String.eqb k key then Some v else get key rest
  | None :: rest => get key rest
  end.

(** [Map.prototype.set]: overwrite the value in place when the key is
    present, append a new entry otherwise. *)
Fixpoint set (key : string) (value : V) (m : t) : t :=
  match m with
  | [] => [Some (key, value)]
  | Some (k, v) :: rest =>
      if String.eqb k key then Some (k, value) :: rest
      else Some (k, v) :: set key value rest
  | None :: rest => None :: set key value rest
  end.

(** [Map.prototype.delete]: the entry found is emptied, not unlinked. *)
Fixpoint delete (key : string) (m : t) : t :=
  match m with
  | [] => []
  | Some (k, v) :: rest =>
      if String.eqb k key then None :: rest
      else Some (k, v) :: delete key rest
  | None :: rest => None :: delete key rest
  end.

(** [Map.prototype.size]: the number of non-empty entries. *)
Fixpoint size (m : t) : nat :=
  match m with
  | [] => 0
  | Some _ :: rest => S (size rest)
  | None :: rest => size rest
  end.

(** What a [for (const [k, v] of m)] loop that does not touch [m] sees. *)
Fixpoint entries (m : t) : list (string * V) :=
  match m with
  | [] => []
  | Some kv :: rest => kv :: entries rest
  | None :: rest => entries rest
  end.

Definition keys (m : t) : list string := map fst (entries m).

(** A map iterator is a position in [[MapData]].  [next m i] skips the
    empty slots from position [i] on and yields the entry found together
    with the position after it, or [None] when the list is exhausted. *)
Fixpoint scan (slots : t) (i : nat) : option ((string * V) * nat) :=
  match slots with
  | [] => None
  | None :: rest => scan rest (S i)
  | Some kv :: rest => Some (kv, S i)
  end.

Definition next (m : t) (i : nat) : option ((string * V) * nat) :=
  scan (skipn i m) i.

(** No key occurs in two non-empty entries; [set] and [delete] keep it. *)
Definition wf (m : t) : Prop := NoDup (keys m).

End MapData.
Arguments t : clear implicits.
Arguments entry : clear implicits.
End JsMap.

(** ** Data *)

(** [proxy: { server, username, password }] of the request. *)
Record proxy_config := {
  px_server : string;
  px_username : option string;
  px_password : option string
}.

Record viewport_size := { width : Z; height : Z }.

(** The [options] argument of [createSession], for the option sets the
    handler documents: a boolean, a proxy object, a viewport object and a
    string.  [None] is a field that is absent ([undefined]) and, for
    [proxy] and [userAgent], one that is [null]. *)
Record session_request := {
  rq_headless : option bool;
  rq_proxy : option proxy_config;
  rq_viewport : option viewport_size;
  rq_userAgent : option string
}.

(** The object handed to [chromium.launchServer]. *)
Record launchOptions := {
  lo_headless : bool;
  lo_args : list string;
  lo_proxy : option proxy_config
}.

(** The [options] object kept in a stored session:
    [{ headless, proxy: !!proxy, viewport }]. *)
Record stored_options := {
  so_headless : bool;
  so_proxy : bool;
  so_viewport : viewport_size
}.

(** Playwright's [BrowserServer]: an object with an identity and the
    string its [wsEndpoint()] method returns. *)
Record server_handle := {
  handle : nat;
  ws : string
}.

(** A JavaScript [Error], of which only [message] is ever read. *)
Record error := { message : string }.

(** How an awaited promise settles. *)
Inductive settled (A : Type) : Type :=
| Fulfilled (a : A)
| Rejected (e : error).
Arguments Fulfilled {A} a.
Arguments Rejected {A} e.

(** One value of the session store. *)
Record session := {
  server : server_handle;
  wsEndpoint : string;
  createdAt : string;
  status : string;
  options : stored_options
}.

Record BrowserManager := { sessions : JsMap.t session }.

(** [constructor()] *)
Definition new_BrowserManager : BrowserManager :=
  {| sessions := JsMap.empty |}.

(** What [createSession] returns. *)
Record created_info := {
  ci_sessionId : string;
  ci_wsEndpoint : string;
  ci_createdAt : string;
  ci_status : string
}.

(** What [getSession] returns and [listSessions] collects. *)
Record session_info := {
  si_sessionId : string;
  si_wsEndpoint : string;
  si_createdAt : string;
  si_status : string;
  si_options : stored_options
}.

(** Calls that leave the process, in the order they are made. *)
Inductive effect :=
| LaunchServer (lo : launchOptions)
| ServerClose (s : server_handle)
| ConsoleLog (line : string)
| ConsoleError (line : string) (detail : string).

(** ** [BrowserManager] *)

(** What a template literal prints for a number; viewport dimensions and
    the session count are integers. *)
Definition number_to_string (n : Z) : string :=
  NilZero.string_of_int (Z.to_int n).

Definition default_viewport : viewport_size :=
  {| width := 1920; height := 1080 |}.

(** The destructuring
    [const { headless = true, proxy = null, viewport = {...} } = options]. *)
Definition headless_of (o : session_request) : bool :=
  match rq_headless o with Some b => b | None => true end.

Definition proxy_of (o : session_request) : option proxy_config :=
  rq_proxy o.

Definition viewport_of (o : session_request) : viewport_size :=
  match rq_viewport o with Some v => v | None => default_viewport end.

(** [launchOptions], with [proxy] added only [if (proxy)]. *)
Definition launch_options (o : session_request) : launchOptions :=
  {| lo_headless := headless_of o;
     lo_args :=
       [ "--no-sandbox";
         "--disable-setuid-sandbox";
         "--disable-dev-shm-usage";
         "--disable-accelerated-2d-canvas";
         "--disable-gpu";
         ("--window-size=" ++ number_to_string (width (viewport_of o)) ++ ","
            ++ number_to_string (height (viewport_of o)))%string ];
     lo_proxy :=
       match proxy_of o with
       | Some p => Some {| px_server := px_server p;
                           px_username := px_username p;
                           px_password := px_password p |}
       | None => None
       end |}.

(** [!!proxy] *)
Definition proxy_flag (o : session_request) : bool :=
  match proxy_of o with Some _ => true | None => false end.

(** The object literal bound to [session] in [createSession]. *)
Definition new_session (o : session_request) (srv : server_handle)
  (now : string) : session :=
  {| server := srv;
     wsEndpoint := ws srv;
     createdAt := now;
     status := "active";
     options := {| so_headless := headless_of o;
                   so_proxy := proxy_flag o;
                   so_viewport := viewport_of o |} |}.

(** [createSession] up to [await chromium.launchServer(launchOptions)]:
    nothing is written, the launch is requested. *)
Definition createSession_call (o : session_request) : list effect :=
  [LaunchServer (launch_options o)].

(** [createSession] from the point where the launch has settled.  A
    rejected launch rejects the call with the same error; [now] is what
    [new Date().toISOString()] returns. *)
Definition createSession_settle (sessionId : string) (o : session_request)
  (launched : settled server_handle) (now : string) (mgr : BrowserManager)
  : BrowserManager * settled created_info :=
  match launched with
  | Rejected e => (mgr, Rejected e)
  | Fulfilled srv =>
      let s := new_session o srv now in
      ({| sessions := JsMap.set sessionId s (sessions mgr) |},
       Fulfilled {| ci_sessionId := sessionId;
                    ci_wsEndpoint := ws srv;
                    ci_createdAt := createdAt s;
                    ci_status := status s |})
  end.

Definition createSession (sessionId : string) (o : session_request)
  (launched : settled server_handle) (now : string) (mgr : BrowserManager)
  : BrowserManager * settled created_info * list effect :=
  (createSession_settle sessionId o launched now mgr, createSession_call o).

Definition info_of (sessionId : string) (s : session) : session_info :=
  {| si_sessionId := sessionId;
     si_wsEndpoint := wsEndpoint s;
     si_createdAt := createdAt s;
     si_status := status s;
     si_options := options s |}.

(** [getSession]; [None] is the [null] returned for an unknown id. *)
Definition getSession (sessionId : string) (mgr : BrowserManager)
  : option session_info :=
  match JsMap.get sessionId (sessions mgr) with
  | None => None
  | Some s => Some (info_of sessionId s)
  end.

Definition listSessions (mgr : BrowserManager) : list session_info :=
  map (fun kv => info_of (fst kv) (snd kv)) (JsMap.entries (sessions mgr)).

Definition getActiveCount (mgr : BrowserManager) : nat :=
  JsMap.size (sessions mgr).

(** [killSession] suspended at [await session.server.close()], holding
    its parameter and the local [session]. *)
Record kill_pending := {
  kp_sessionId : string;
  kp_session : session
}.

(** [killSession] up to its [await]: either it has already returned
    [false], or [close()] has been called on the stored server. *)
Definition killSession_call (sessionId : string) (mgr : BrowserManager)
  : (bool + kill_pending) * list effect :=
  match JsMap.get sessionId (sessions mgr) with
  | None => (inl false, [])
  | Some s =>
      (inr {| kp_sessionId := sessionId; kp_session := s |},
       [ServerClose (server s)])
  end.

(** [killSession] once [close()] has settled: a rejection is caught and
    printed, then the entry is deleted and [true] returned. *)
Definition killSession_settle (p : kill_pending) (closed : settled unit)
  (mgr : BrowserManager) : BrowserManager * bool * list effect :=
  ({| sessions := JsMap.delete (kp_sessionId p) (sessions mgr) |},
   true,
   match closed with
   | Fulfilled _ => []
   | Rejected err =>
       [ConsoleError
          ("Error closing server for session " ++ kp_sessionId p ++ ":")%string
          (message err)]
   end).

(** [close] tells how the driver answers [close()] on a given server. *)
Definition killSession (close : server_handle -> settled unit)
  (sessionId : string) (mgr : BrowserManager)
  : BrowserManager * bool * list effect :=
  match killSession_call sessionId mgr with
  | (inl b, eff) => (mgr, b, eff)
  | (inr p, eff) =>
      let '(mgr', b, eff') :=
        killSession_settle p (close (server (kp_session p))) mgr in
      (mgr', b, eff ++ eff')
  end.

(** The [for (const [sessionId] of this.sessions)] loop of [cleanup], the
    iterator standing at position [i] of the live map.  [fuel] bounds the
    number of iterations; [None] means it ran out. *)
Fixpoint cleanup_loop (fuel : nat) (close : server_handle -> settled unit)
  (i : nat) (mgr : BrowserManager) : option (BrowserManager * list effect) :=
  match JsMap.next (sessions mgr) i with
  | None => Some (mgr, [])
  | Some ((sessionId, _), j) =>
      match fuel with
      | O => None
      | S fuel' =>
          let '(mgr1, _, eff1) := killSession close sessionId mgr in
          match cleanup_loop fuel' close j mgr1 with
          | Some (mgr2, eff2) => Some (mgr2, eff1 ++ eff2)
          | None => None
          end
      end
  end.

Definition cleanup_with (fuel : nat) (close : server_handle -> settled unit)
  (mgr : BrowserManager) : option (BrowserManager * list effect) :=
  match cleanup_loop fuel close 0 mgr with
  | Some (mgr', eff) =>
      Some (mgr',
            ConsoleLog
              ("Cleaning up "
                 ++ number_to_string (Z.of_nat (JsMap.size (sessions mgr)))
                 ++ " browser sessions...")%string :: eff)
  | None => None
  end.

(** One iteration per slot of the map is always enough. *)
Definition cleanup (close : server_handle -> settled unit)
  (mgr : BrowserManager) : option (BrowserManager * list effect) :=
  cleanup_with (length (sessions mgr)) close mgr.

(** ** [POST /sessions] *)

(** The [session] object of the 201 response. *)
Record created_body := {
  cb_id : string;
  cb_wsEndpoint : string;
  cb_cdpUrl : string;
  cb_createdAt : string;
  cb_status : string
}.

Inductive response :=
| Http201 (session : created_body)
| Http500 (error : string).

(** The options object the handler builds from the request body:
    [body.headless ?? true], [body.proxy || null],
    [body.viewport || { width: 1920, height: 1080 }] and
    [body.userAgent || null] (an empty string is falsy). *)
Definition request_of_body (body : session_request) : session_request :=
  {| rq_headless :=
       Some (match rq_headless body with Some b => b | None => true end);
     rq_proxy := rq_proxy body;
     rq_viewport :=
       Some (match rq_viewport body with
             | Some v => v
             | None => {| width := 1920; height := 1080 |}
             end);
     rq_userAgent :=
       match rq_userAgent body with
       | Some EmptyString => None
       | ua => ua
       end |}.

(** The handler; [nano] is what [nanoid(16)] returned. *)
Definition post_sessions (nano : string) (body : session_request)
  (launched : settled server_handle) (now : string) (mgr : BrowserManager)
  : BrowserManager * response * list effect :=
  let sessionId := ("sess_" ++ nano)%string in
  let o := request_of_body body in
  let '(mgr', r) := createSession_settle sessionId o launched now mgr in
  match r with
  | Fulfilled s =>
      (mgr',
       Http201 {| cb_id := ci_sessionId s;
                  cb_wsEndpoint := ci_wsEndpoint s;
                  cb_cdpUrl := ci_wsEndpoint s;
                  cb_createdAt := ci_createdAt s;
                  cb_status := ci_status s |},
       ConsoleLog ("Creating session " ++ sessionId ++ "...")%string
         :: createSession_call o
         ++ [ConsoleLog ("Session " ++ sessionId ++ " created. WS: "
                           ++ ci_wsEndpoint s)%string])
  | Rejected err =>
      (mgr',
       Http500 (message err),
       ConsoleLog ("Creating session " ++ sessionId ++ "...")%string
         :: createSession_call o
         ++ [ConsoleError "Failed to create session:" (message err)])
  end.

(** ** Interleavings

    JavaScript runs each stretch of code between two [await]s without
    interruption, and [this.sessions] is written in two places only: where
    [createSession] resumes after the launch and where [killSession]
    resumes after [close()].  Whatever the order in which requests arrive
    and promises settle, the store therefore goes through a sequence of
    these two resumptions. *)

Inductive action :=
| CreateSettles (sessionId : string) (o : session_request)
    (launched : settled server_handle) (now : string)
| KillSettles (p : kill_pending) (closed : settled unit).

Definition exec (a : action) (mgr : BrowserManager) : BrowserManager :=
  match a with
  | CreateSettles sessionId o launched now =>
      fst (createSession_settle sessionId o launched now mgr)
  | KillSettles p closed =>
      fst (fst (killSession_settle p closed mgr))
  end.

Definition run (acts : list action) (mgr : BrowserManager) : BrowserManager :=
  fold_left (fun m a => exec a m) acts mgr.

Definition reachable (mgr : BrowserManager) : Prop :=
  exists acts, run acts new_BrowserManager = mgr.

(** The ids under which the create calls of a history registered a
    session, in order. *)
Fixpoint assigned_ids (acts : list action) : list string :=
  match acts with
  | [] => []
  | CreateSettles sessionId _ (Fulfilled _) _ :: rest =>
      sessionId :: assigned_ids rest
  | _ :: rest => assigned_ids rest
  end.

(** The servers the driver handed out during a history, in order. *)
Fixpoint launched_servers (acts : list action) : list server_handle :=
  match acts with
  | [] => []
  | CreateSettles _ _ (Fulfilled srv) _ :: rest =>
      srv :: launched_servers rest
  | _ :: rest => launched_servers rest
  end.

(** Every session a history ever put into the store, in order. *)
Fixpoint registered (acts : list action) : list (string * session) :=
  match acts with
  | [] => []
  | CreateSettles sessionId o (Fulfilled srv) now :: rest =>
      (sessionId, new_session o srv now) :: registered rest
  | _ :: rest => registered rest
  end.

(** The servers owned by the sessions now in the store. *)
Definition owned_servers (mgr : BrowserManager) : list server_handle :=
  map (fun kv => server (snd kv)) (JsMap.entries (sessions mgr)).

(** ** Notions used in the statements *)

(** Every stored session has the status it was created with. *)
Definition all_active (mgr : BrowserManager) : Prop :=
  forall kv, In kv (JsMap.entries (sessions mgr)) -> status (snd kv) = "active".

(** The handles of the servers owned by the sessions now in the store. *)
Definition owned_handles (mgr : BrowserManager) : list nat :=
  map (fun kv => handle (server (snd kv))) (JsMap.entries (sessions mgr)).

(** What one turn of the [cleanup] loop sends out for the entry it is at. *)
Definition close_effects (close : server_handle -> settled unit)
  (kv : string * session) : list effect :=
  ServerClose (server (snd kv)) ::
  match close (server (snd kv)) with
  | Fulfilled _ => []
  | Rejected err =>
      [ConsoleError
         ("Error closing server for session " ++ fst kv ++ ":")%string
         (message err)]
  end.

Definition all_empty {V} (slots : JsMap.t V) : Prop :=
  Forall (fun e => e = None) slots.

(** [cleanup] between two stretches of its loop: about to ask the
    iterator, which stands at position [i], for the next entry; or waiting
    for the [killSession] it called, the iterator standing at [j]. *)
Inductive cleanup_state :=
| AtPosition (i : nat)
| AwaitingKill (j : nat) (p : kill_pending).

(** [cleanup_completes st mgr final]: [cleanup], being in state [st] when
    the store is [mgr], runs to its end, other requests being served while
    it waits, and the store is [final] when it returns. *)
Inductive cleanup_completes
  : cleanup_state -> BrowserManager -> BrowserManager -> Prop :=
| cc_exhausted i mgr :
    JsMap.next (sessions mgr) i = None ->
    cleanup_completes (AtPosition i) mgr mgr
| cc_not_found i mgr sessionId s j b eff final :
    JsMap.next (sessions mgr) i = Some ((sessionId, s), j) ->
    killSession_call sessionId mgr = (inl b, eff) ->
    cleanup_completes (AtPosition j) mgr final ->
    cleanup_completes (AtPosition i) mgr final
| cc_close i mgr sessionId s j p eff final :
    JsMap.next (sessions mgr) i = Some ((sessionId, s), j) ->
    killSession_call sessionId mgr = (inr p, eff) ->
    cleanup_completes (AwaitingKill j p) mgr final ->
    cleanup_completes (AtPosition i) mgr final
| cc_settle j p closed mgr final :
    cleanup_completes (AtPosition j)
      (fst (fst (killSession_settle p closed mgr))) final ->
    cleanup_completes (AwaitingKill j p) mgr final
| cc_meanwhile st a mgr final :
    cleanup_completes st (exec a mgr) final ->
    cleanup_completes st mgr final.

(** The slots the iterator of [cleanup] has passed are empty; the one it
    is at while [killSession] is pending is empty or still holds the id
    being killed. *)
Definition passed_empty (st : cleanup_state) (mgr : BrowserManager) : Prop :=
  match st with
  | AtPosition i =>
      exists pre rest,
        sessions mgr = pre ++ rest /\ length pre = i /\ all_empty pre
  | AwaitingKill j p =>
      exists pre e rest,
        sessions mgr = pre ++ e :: rest /\ S (length pre) = j
        /\ all_empty pre
        /\ (e = None \/ exists s, e = Some (kp_sessionId p, s))
  end.

(** The registry in which the server object of every stored session has
    been exchanged for another one, chosen by [f]. *)
Definition reseat (f : string -> server_handle -> server_handle)
  (mgr : BrowserManager) : BrowserManager :=
  {| sessions :=
       map (option_map
              (fun kv : string * session =>
                 (fst kv,
                  {| server := f (fst kv) (server (snd kv));
                     wsEndpoint := wsEndpoint (snd kv);
                     createdAt := createdAt (snd kv);
                     status := status (snd kv);
                     options := options (snd kv) |})))
           (sessions mgr) |}.

(** ** Sample inputs *)

Definition sample_server (n : nat) : server_handle :=
  {| handle := n; ws := "ws://127.0.0.1:9222/browser" |}.

Definition no_options : session_request :=
  {| rq_headless := None; rq_proxy := None;
     rq_viewport := None; rq_userAgent := None |}.

Definition close_ok (_ : server_handle) : settled unit := Fulfilled tt.

Definition close_fails (_ : server_handle) : settled unit :=
  Rejected {| message := "Target closed" |}.

(** The manager after one [createSession("sess_a")]. *)
Definition one_session : BrowserManager :=
  fst (fst (createSession "sess_a" no_options
              (Fulfilled (sample_server 1)) "2026-01-29T00:00:00.000Z"
              new_BrowserManager)).

Definition request_via (proxy_server : string) : session_request :=
  {| rq_headless := Some false;
     rq_proxy := Some {| px_server := proxy_server;
                         px_username := Some "user";
                         px_password := Some "secret" |};
     rq_viewport := Some {| width := 800; height := 600 |};
     rq_userAgent := None |}.

(** A history in which two sessions are created. *)
Definition two_sessions : list action :=
  [CreateSettles "sess_a" no_options (Fulfilled (sample_server 1))
     "2026-01-29T00:00:00.000Z";
   CreateSettles "sess_b" (request_via "http://proxy-a.example:8080")
     (Fulfilled (sample_server 2)) "2026-01-29T00:00:01.000Z"].

(** ** The other routes and the shutdown hook *)

(** The body of [GET /]. *)
Record root_body := {
  rb_service : string;
  rb_version : string;
  rb_status : string;
  rb_activeSessions : nat
}.

Definition get_root (mgr : BrowserManager) : root_body :=
  {| rb_service := "Browser-as-a-Service";
     rb_version := "0.1.0";
     rb_status := "ok";
     rb_activeSessions := getActiveCount mgr |}.

(** One element of [sessions] in the body of [GET /sessions]. *)
Record listed_session := {
  ls_id : string;
  ls_wsEndpoint : string;
  ls_createdAt : string;
  ls_status : string;
  ls_options : stored_options
}.

Record list_body := {
  lb_success : bool;
  lb_count : nat;
  lb_sessions : list listed_session
}.

Definition get_sessions (mgr : BrowserManager) : list_body :=
  let sessions := listSessions mgr in
  {| lb_success := true;
     lb_count := length sessions;
     lb_sessions :=
       map (fun s => {| ls_id := si_sessionId s;
                        ls_wsEndpoint := si_wsEndpoint s;
                        ls_createdAt := si_createdAt s;
                        ls_status := si_status s;
                        ls_options := si_options s |})
           sessions |}.

(** The [session] object of a 200 answer to [GET /sessions/:id]. *)
Record detail_body := {
  db_id : string;
  db_wsEndpoint : string;
  db_cdpUrl : string;
  db_createdAt : string;
  db_status : string;
  db_options : stored_options
}.

Inductive detail_response :=
| Found200 (session : detail_body)
| NotFound404 (error : string).

Definition get_session_by_id (sessionId : string) (mgr : BrowserManager)
  : detail_response :=
  match getSession sessionId mgr with
  | None => NotFound404 "Session not found"
  | Some session =>
      Found200 {| db_id := si_sessionId session;
                  db_wsEndpoint := si_wsEndpoint session;
                  db_cdpUrl := si_wsEndpoint session;
                  db_createdAt := si_createdAt session;
                  db_status := si_status session;
                  db_options := si_options session |}
  end.

Inductive delete_response :=
| Deleted200 (message : string)
| Missing404 (error : string).

(** [DELETE /sessions/:id], nothing else being served while it waits for
    [killSession]. *)
Definition delete_session (close : server_handle -> settled unit)
  (sessionId : string) (mgr : BrowserManager)
  : BrowserManager * delete_response * list effect :=
  let '(mgr', killed, eff) := killSession close sessionId mgr in
  if killed then
    (mgr',
     Deleted200 ("Session " ++ sessionId ++ " terminated")%string,
     ConsoleLog ("Killing session " ++ sessionId ++ "...")%string
       :: eff ++ [ConsoleLog ("Session " ++ sessionId ++ " killed.")%string])
  else
    (mgr',
     Missing404 "Session not found",
     ConsoleLog ("Killing session " ++ sessionId ++ "...")%string :: eff).

(** What the process does on [SIGINT] or [SIGTERM]: calls to the outside
    and, last, [process.exit]. *)
Inductive process_event :=
| Outside (e : effect)
| ProcessExit (code : Z).

(** [shutdown], nothing else being served and no second signal arriving
    while it waits for [cleanup]; the log line starts with a line feed. *)
Definition shutdown (close : server_handle -> settled unit)
  (mgr : BrowserManager) : option (list process_event) :=
  match cleanup close mgr with
  | Some (_, eff) =>
      Some (Outside (ConsoleLog (String "010"%char "Shutting down..."))
              :: map Outside eff ++ [ProcessExit 0])
  | None => None
  end.

(** ** Further notions used in the statements *)

(** The servers on which a list of effects calls [close()], in order. *)
Fixpoint closed_servers (eff : list effect) : list server_handle :=
  match eff with
  | [] => []
  | ServerClose s :: rest => s :: closed_servers rest
  | _ :: rest => closed_servers rest
  end.

(** [killSession] for each id of a list in turn. *)
Fixpoint kill_each (close : server_handle -> settled unit)
  (ids : list string) (mgr : BrowserManager) : BrowserManager * list effect :=
  match ids with
  | [] => (mgr, [])
  | sessionId :: rest =>
      let '(mgr1, _, eff1) := killSession close sessionId mgr in
      let '(mgr2, eff2) := kill_each close rest mgr1 in
      (mgr2, eff1 ++ eff2)
  end.

(** A request body with its [userAgent] field replaced. *)
Definition with_userAgent (ua : option string) (body : session_request)
  : session_request :=
  {| rq_headless := rq_headless body;
     rq_proxy := rq_proxy body;
     rq_viewport := rq_viewport body;
     rq_userAgent := ua |}.

(** ** Histories of requests

    What the HTTP front end does to the registry over time.  The only
    place a session id is made is the [POST /sessions] handler, from what
    [nanoid(16)] returns to it; the registry is written when that handler
    resumes after the launch has settled and when a [killSession] resumes
    after [close()]. *)

Inductive request :=
| PostSettles (nano : string) (body : session_request)
    (launched : settled server_handle) (now : string)
| KillResumes (p : kill_pending) (closed : settled unit).

(** The store a request leaves and the answer a [POST] sends. *)
Definition serve_one (q : request) (mgr : BrowserManager)
  : BrowserManager * list response :=
  match q with
  | PostSettles nano body launched now =>
      let r := post_sessions nano body launched now mgr in
      (fst (fst r), [snd (fst r)])
  | KillResumes p closed =>
      (fst (fst (killSession_settle p closed mgr)), [])
  end.

Fixpoint serve (reqs : list request) (mgr : BrowserManager)
  : BrowserManager * list response :=
  match reqs with
  | [] => (mgr, [])
  | q :: rest =>
      let '(mgr1, answers1) := serve_one q mgr in
      let '(mgr2, answers2) := serve rest mgr1 in
      (mgr2, answers1 ++ answers2)
  end.

(** The strings [nanoid(16)] returned during a history, one per [POST]
    whether or not its launch succeeded. *)
Fixpoint generated (reqs : list request) : list string :=
  match reqs with
  | [] => []
  | PostSettles nano _ _ _ :: rest => nano :: generated rest
  | KillResumes _ _ :: rest => generated rest
  end.

(** The servers the driver handed to the [POST]s of a history. *)
Fixpoint launched_by (reqs : list request) : list server_handle :=
  match reqs with
  | [] => []
  | PostSettles _ _ (Fulfilled srv) _ :: rest => srv :: launched_by rest
  | _ :: rest => launched_by rest
  end.

(** The ids in the 201 answers of a list of answers, in order. *)
Fixpoint answered_ids (answers : list response) : list string :=
  match answers with
  | [] => []
  | Http201 session :: rest => cb_id session :: answered_ids rest
  | Http500 _ :: rest => answered_ids rest
  end.

(** The store-writing resumption a request amounts to. *)
Definition to_action (q : request) : action :=
  match q with
  | PostSettles nano body launched now =>
      CreateSettles ("sess_" ++ nano)%string (request_of_body body)
        launched now
  | KillResumes p closed => KillSettles p closed
  end.

(** Sample histories. *)
Definition first_post : request :=
  PostSettles "V1StGXR8_Z5jdHi6" no_options (Fulfilled (sample_server 1))
    "2026-01-29T00:00:00.000Z".

Definition second_post : request :=
  PostSettles "3bQk0xTq9LwZr_Ya" (request_via "http://proxy-a.example:8080")
    (Fulfilled (sample_server 2)) "2026-01-29T00:00:01.000Z".

Definition third_post : request :=
  PostSettles "pD7-mN2cVu_8sEoK" no_options (Fulfilled (sample_server 3))
    "2026-01-29T00:00:02.000Z".

(** ** Facts about the [Map] model *)

Section MapFacts.
Context {V : Type}.
Implicit Types (m : JsMap.t V) (k key : string) (v : V).

Lemma get_set_same key v m : JsMap.get key (JsMap.set key v m) = Some v.
Proof.
  induction m as [|[[k w]|] rest IH]; simpl.
  - now rewrite String.eqb_refl.
  - destruct (String.eqb k key) eqn:E; simpl; now rewrite E.
  - exact IH.
Qed.

Lemma get_set_other key k v m :
  key <> k -> JsMap.get k (JsMap.set key v m) = JsMap.get k m.
Proof.
  intros Hne. induction m as [|[[k0 w]|] rest IH]; simpl.
  - destruct (String.eqb_spec key k); [contradiction | reflexivity].
  - destruct (String.eqb_spec k0 key) as [->|Hk]; simpl.
    + destruct (String.eqb_spec key k); [contradiction | reflexivity].
    + now rewrite IH.
  - exact IH.
Qed.

Lemma get_delete_other key k m :
  key <> k -> JsMap.get k (JsMap.delete key m) = JsMap.get k m.
Proof.
  intros Hne. induction m as [|[[k0 w]|] rest IH]; simpl; auto.
  destruct (String.eqb_spec k0 key) as [->|Hk]; simpl.
  - destruct (String.eqb_spec key k); [contradiction | reflexivity].
  - now rewrite IH.
Qed.

Lemma get_none_keys key m :
  JsMap.get key m = None <-> ~ In key (JsMap.keys m).
Proof.
  unfold JsMap.keys.
  induction m as [|[[k w]|] rest IH]; simpl.
  - tauto.
  - destruct (String.eqb_spec k key) as [->|Hk].
    + split; [discriminate | intros H; exfalso; apply H; now left].
    + rewrite IH. tauto.
  - exact IH.
Qed.

Lemma get_some_entries key v m :
  JsMap.get key m = Some v -> In (key, v) (JsMap.entries m).
Proof.
  induction m as [|[[k w]|] rest IH]; simpl; try discriminate; auto.
  destruct (String.eqb_spec k key) as [->|Hk].
  - intros [= ->]. now left.
  - intros H. right. auto.
Qed.

Lemma delete_absent key m :
  JsMap.get key m = None -> JsMap.delete key m = m.
Proof.
  induction m as [|[[k w]|] rest IH]; simpl; auto.
  - destruct (String.eqb k key); [discriminate|].
    intros H. now rewrite IH.
  - intros H. now rewrite IH.
Qed.

Lemma keys_delete_incl key m k :
  In k (JsMap.keys (JsMap.delete key m)) -> In k (JsMap.keys m).
Proof.
  unfold JsMap.keys.
  induction m as [|[[k0 w]|] rest IH]; simpl; auto.
  destruct (String.eqb k0 key); simpl; tauto.
Qed.

Lemma wf_empty : JsMap.wf (@JsMap.empty V).
Proof. constructor. Qed.

Lemma wf_delete key m : JsMap.wf m -> JsMap.wf (JsMap.delete key m).
Proof.
  unfold JsMap.wf.
  induction m as [|[[k0 w]|] rest IH]; simpl; auto.
  unfold JsMap.keys in *. simpl. intros H. inversion H as [|? ? Hn Hr]; subst.
  destruct (String.eqb k0 key); simpl; auto.
  constructor; auto.
  intros Hin. apply Hn. now apply (keys_delete_incl key rest k0).
Qed.

Lemma keys_set key v m :
  JsMap.keys (JsMap.set key v m) =
  match JsMap.get key m with
  | Some _ => JsMap.keys m
  | None => JsMap.keys m ++ [key]
  end.
Proof.
  unfold JsMap.keys.
  induction m as [|[[k0 w]|] rest IH]; simpl; auto.
  destruct (String.eqb_spec k0 key) as [->|Hk]; simpl; auto.
  rewrite IH. now destruct (JsMap.get key rest).
Qed.

Lemma wf_set key v m : JsMap.wf m -> JsMap.wf (JsMap.set key v m).
Proof.
  unfold JsMap.wf. intros H. rewrite keys_set.
  destruct (JsMap.get key m) eqn:E; auto.
  apply get_none_keys in E.
  apply NoDup_app; auto.
  - constructor; [intros [] | constructor].
  - intros x Hx [<-|[]]. contradiction.
Qed.

Lemma get_delete_same key m :
  JsMap.wf m -> JsMap.get key (JsMap.delete key m) = None.
Proof.
  unfold JsMap.wf, JsMap.keys.
  induction m as [|[[k0 w]|] rest IH]; simpl; auto.
  intros H. inversion H as [|? ? Hn Hr]; subst.
  destruct (String.eqb_spec k0 key) as [->|Hk]; simpl.
  - now apply get_none_keys.
  - destruct (String.eqb_spec k0 key); [contradiction | auto].
Qed.

Lemma get_delete_none key k m :
  JsMap.get k m = None -> JsMap.get k (JsMap.delete key m) = None.
Proof.
  intros H. destruct (string_dec key k) as [->|Hne].
  - now rewrite delete_absent.
  - now rewrite get_delete_other.
Qed.

Lemma size_entries m : JsMap.size m = length (JsMap.entries m).
Proof.
  induction m as [|[kv|] rest IH]; simpl; auto.
Qed.

Lemma length_delete key m : length (JsMap.delete key m) = length m.
Proof.
  induction m as [|[[k0 w]|] rest IH]; simpl; auto.
  destruct (String.eqb k0 key); simpl; auto.
Qed.

Lemma size_delete_present key v m :
  JsMap.get key m = Some v -> S (JsMap.size (JsMap.delete key m)) = JsMap.size m.
Proof.
  induction m as [|[[k0 w]|] rest IH]; simpl; try discriminate; auto.
  destruct (String.eqb k0 key); simpl; auto.
Qed.

Lemma size_set key v m :
  JsMap.size (JsMap.set key v m) =
  match JsMap.get key m with
  | Some _ => JsMap.size m
  | None => S (JsMap.size m)
  end.
Proof.
  rewrite !size_entries.
  assert (H : length (JsMap.keys (JsMap.set key v m)) =
              length (JsMap.entries (JsMap.set key v m)))
    by (unfold JsMap.keys; apply length_map).
  rewrite <- H, keys_set.
  destruct (JsMap.get key m); unfold JsMap.keys.
  - apply length_map.
  - rewrite length_app, length_map. simpl. lia.
Qed.

(** Iterating with [next] from position [0] enumerates [entries]. *)
Lemma scan_entries (slots : JsMap.t V) i :
  JsMap.entries slots =
  match JsMap.scan slots i with
  | None => []
  | Some (kv, j) => kv :: JsMap.entries (skipn (j - i) slots)
  end.
Proof.
  revert i. induction slots as [|[kv|] rest IH]; intros i;
    cbn [JsMap.entries JsMap.scan]; auto.
  - replace (S i - i) with 1 by lia. reflexivity.
  - rewrite (IH (S i)).
    destruct (JsMap.scan rest (S i)) as [[kv j]|] eqn:E; auto.
    assert (S i < j).
    { clear - E. revert i E. induction rest as [|[x|] r IHr]; intros i E;
        simpl in E; try discriminate.
      - injection E as _ <-. lia.
      - apply IHr in E. lia. }
    replace (j - i) with (S (j - S i)) by lia. reflexivity.
Qed.

End MapFacts.

Create HintDb jsmap.
#[global] Hint Resolve wf_empty wf_set wf_delete : jsmap.

(** ** Facts about the manager *)

Lemma entries_set_in {V} key (v : V) m kv :
  In kv (JsMap.entries (JsMap.set key v m)) ->
  kv = (key, v) \/ In kv (JsMap.entries m).
Proof.
  induction m as [|[[k0 w]|] rest IH]; simpl.
  - intros [<-|[]]. now left.
  - destruct (String.eqb_spec k0 key) as [->|Hk]; simpl.
    + intros [<-|H]; [now left | right; now right].
    + intros [<-|H]; [right; now left |].
      destruct (IH H); [now left | right; now right].
  - exact IH.
Qed.

Lemma entries_delete_in {V} key (m : JsMap.t V) kv :
  In kv (JsMap.entries (JsMap.delete key m)) -> In kv (JsMap.entries m).
Proof.
  induction m as [|[[k0 w]|] rest IH]; simpl; auto.
  destruct (String.eqb k0 key); simpl; tauto.
Qed.

Lemma run_app acts1 acts2 mgr :
  run (acts1 ++ acts2) mgr = run acts2 (run acts1 mgr).
Proof. unfold run. apply fold_left_app. Qed.

Lemma exec_wf a mgr :
  JsMap.wf (sessions mgr) -> JsMap.wf (sessions (exec a mgr)).
Proof.
  intros H. destruct a as [sessionId o [srv|e] now|p closed]; simpl;
    auto with jsmap.
Qed.

Lemma run_wf acts : forall mgr,
  JsMap.wf (sessions mgr) -> JsMap.wf (sessions (run acts mgr)).
Proof.
  induction acts as [|a acts IH]; intros mgr H; simpl; auto.
  apply IH. now apply exec_wf.
Qed.

Lemma reachable_wf mgr : reachable mgr -> JsMap.wf (sessions mgr).
Proof.
  intros [acts <-]. apply run_wf. simpl. auto with jsmap.
Qed.

#[global] Hint Resolve reachable_wf : jsmap.

Lemma exec_all_active a mgr : all_active mgr -> all_active (exec a mgr).
Proof.
  intros H kv. destruct a as [sessionId o [srv|e] now|p closed]; simpl.
  - intros Hin. apply entries_set_in in Hin as [->|Hin]; [reflexivity | auto].
  - auto.
  - intros Hin. apply entries_delete_in in Hin. auto.
Qed.

Lemma reachable_all_active mgr : reachable mgr -> all_active mgr.
Proof.
  intros [acts <-].
  assert (G : forall m, all_active m -> all_active (run acts m)).
  { induction acts as [|a acts IH]; intros m Hm; simpl; auto.
    apply IH. now apply exec_all_active. }
  apply G. intros kv [].
Qed.

(** The sequential calls are particular histories. *)
Lemma createSession_exec sessionId o launched now mgr :
  fst (fst (createSession sessionId o launched now mgr)) =
  exec (CreateSettles sessionId o launched now) mgr.
Proof. reflexivity. Qed.

Lemma killSession_exec close sessionId mgr :
  exists acts, fst (fst (killSession close sessionId mgr)) = run acts mgr.
Proof.
  unfold killSession, killSession_call.
  destruct (JsMap.get sessionId (sessions mgr)) as [s|].
  - exists [KillSettles {| kp_sessionId := sessionId; kp_session := s |}
                        (close (server s))].
    reflexivity.
  - exists []. reflexivity.
Qed.

Lemma get_skip_empty {V} key (pre rest : JsMap.t V) :
  all_empty pre -> JsMap.get key (pre ++ rest) = JsMap.get key rest.
Proof.
  induction 1 as [|e pre He _ IH]; simpl; auto. now subst e.
Qed.

Lemma delete_skip_empty {V} key (pre rest : JsMap.t V) :
  all_empty pre ->
  JsMap.delete key (pre ++ rest) = pre ++ JsMap.delete key rest.
Proof.
  induction 1 as [|e pre He _ IH]; simpl; auto. subst e. now rewrite IH.
Qed.

Lemma size_all_empty {V} (slots : JsMap.t V) :
  all_empty slots -> JsMap.size slots = 0.
Proof. induction 1 as [|e l He _ IH]; simpl; auto. now subst e. Qed.

Lemma next_at_prefix {V} (pre rest : JsMap.t V) :
  JsMap.next (pre ++ rest) (length pre) = JsMap.scan rest (length pre).
Proof.
  unfold JsMap.next. f_equal.
  induction pre as [|e pre IH]; simpl; auto.
Qed.

Lemma cleanup_loop_next fuel close i i' mgr :
  JsMap.next (sessions mgr) i = JsMap.next (sessions mgr) i' ->
  cleanup_loop fuel close i mgr = cleanup_loop fuel close i' mgr.
Proof. intros H. destruct fuel; simpl; now rewrite H. Qed.

Lemma app_cons_shift {A} (pre : list A) (e : A) (rest : list A) :
  pre ++ e :: rest = (pre ++ [e]) ++ rest.
Proof. now rewrite <- app_assoc. Qed.

Lemma length_snoc {A} (pre : list A) (e : A) :
  S (length pre) = length (pre ++ [e]).
Proof. rewrite length_app. simpl. lia. Qed.

Lemma all_empty_snoc {V} (pre : JsMap.t V) :
  all_empty pre -> all_empty (pre ++ [None]).
Proof. intros H. apply Forall_app. split; [assumption | now constructor]. Qed.

Lemma cleanup_loop_drains close rest : forall pre fuel,
  all_empty pre ->
  length rest <= fuel ->
  cleanup_loop fuel close (length pre) {| sessions := pre ++ rest |} =
  Some ({| sessions := pre ++ map (fun _ => None) rest |},
        flat_map (close_effects close) (JsMap.entries rest)).
Proof.
  induction rest as [|[[k s]|] rest IH]; intros pre fuel Hpre Hfuel.
  - destruct fuel; simpl; now rewrite next_at_prefix.
  - destruct fuel as [|fuel]; [simpl in Hfuel; lia|].
    cbn [cleanup_loop sessions]. rewrite next_at_prefix. cbn [JsMap.scan].
    unfold killSession, killSession_call. cbn [sessions].
    rewrite get_skip_empty by assumption. cbn [JsMap.get].
    rewrite String.eqb_refl.
    cbn [killSession_settle kp_sessionId kp_session sessions].
    rewrite delete_skip_empty by assumption. cbn [JsMap.delete].
    rewrite String.eqb_refl.
    rewrite (app_cons_shift pre _ rest), (length_snoc pre None).
    rewrite IH; [| now apply all_empty_snoc | simpl in Hfuel; lia].
    cbn [map JsMap.entries flat_map]. unfold close_effects at 2.
    cbn [fst snd]. rewrite <- app_assoc. cbn [app].
    destruct (close (server s)); reflexivity.
  - rewrite (cleanup_loop_next fuel close (length pre) (S (length pre))).
    + rewrite (app_cons_shift pre _ rest), (length_snoc pre None).
      rewrite IH; [| now apply all_empty_snoc | simpl in Hfuel; lia].
      cbn [map JsMap.entries]. now rewrite <- app_assoc.
    + cbn [sessions]. rewrite next_at_prefix. cbn [JsMap.scan].
      rewrite (app_cons_shift pre _ rest), (length_snoc pre None).
      now rewrite next_at_prefix.
Qed.

Lemma run_keeps_absent sessionId acts : forall mgr,
  JsMap.get sessionId (sessions mgr) = None ->
  ~ In sessionId (assigned_ids acts) ->
  JsMap.get sessionId (sessions (run acts mgr)) = None.
Proof.
  induction acts as [|a acts IH]; intros mgr Hget Hnot; simpl; auto.
  apply IH.
  - destruct a as [k o [srv|e] now|p closed]; simpl; auto.
    + rewrite get_set_other; auto.
      intros ->. apply Hnot. simpl. now left.
    + now apply get_delete_none.
  - destruct a as [k o [srv|e] now|p closed]; simpl in Hnot; auto.
Qed.

Lemma getSession_none sessionId mgr :
  getSession sessionId mgr = None <-> JsMap.get sessionId (sessions mgr) = None.
Proof.
  unfold getSession. destruct (JsMap.get sessionId (sessions mgr)).
  - split; discriminate.
  - tauto.
Qed.

Lemma killSession_present close sessionId s mgr :
  JsMap.get sessionId (sessions mgr) = Some s ->
  killSession close sessionId mgr =
  ({| sessions := JsMap.delete sessionId (sessions mgr) |}, true,
   close_effects close (sessionId, s)).
Proof.
  intros H. unfold killSession, killSession_call. rewrite H. reflexivity.
Qed.

Lemma killSession_absent close sessionId mgr :
  JsMap.get sessionId (sessions mgr) = None ->
  killSession close sessionId mgr = (mgr, false, []).
Proof.
  intros H. unfold killSession, killSession_call. now rewrite H.
Qed.

Lemma killSession_leaves_absent close sessionId mgr :
  JsMap.wf (sessions mgr) ->
  JsMap.get sessionId (sessions (fst (fst (killSession close sessionId mgr))))
  = None.
Proof.
  intros Hwf. destruct (JsMap.get sessionId (sessions mgr)) as [s|] eqn:E.
  - rewrite (killSession_present close _ s _ E). simpl.
    now apply get_delete_same.
  - now rewrite (killSession_absent close _ _ E).
Qed.

Lemma one_session_reachable : reachable one_session.
Proof.
  exists [CreateSettles "sess_a" no_options (Fulfilled (sample_server 1))
            "2026-01-29T00:00:00.000Z"].
  reflexivity.
Defined.

(** ** [cleanup] while other requests are served *)

Lemma set_skip_empty {V} key (v : V) (pre rest : JsMap.t V) :
  all_empty pre ->
  JsMap.set key v (pre ++ rest) = pre ++ JsMap.set key v rest.
Proof.
  induction 1 as [|e pre He _ IH]; simpl; auto. subst e. now rewrite IH.
Qed.

Lemma scan_none {V} (slots : JsMap.t V) i :
  JsMap.scan slots i = None -> all_empty slots.
Proof.
  revert i. induction slots as [|[kv|] rest IH]; intros i H; simpl in H.
  - constructor.
  - discriminate.
  - constructor; [reflexivity | exact (IH (S i) H)].
Qed.

Lemma scan_some {V} (slots : JsMap.t V) i kv j :
  JsMap.scan slots i = Some (kv, j) ->
  exists mid rest,
    slots = mid ++ Some kv :: rest /\ all_empty mid
    /\ j = S (i + length mid).
Proof.
  revert i. induction slots as [|[kv0|] rest IH]; intros i H; simpl in H.
  - discriminate.
  - injection H as -> <-. exists [], rest.
    repeat split; [constructor | simpl; lia].
  - apply IH in H as (mid & rest' & -> & Hmid & ->).
    exists (None :: mid), rest'.
    repeat split; [now constructor | simpl; lia].
Qed.

Lemma exec_passed_empty a st mgr :
  passed_empty st mgr -> passed_empty st (exec a mgr).
Proof.
  destruct st as [i|j p].
  - intros (pre & rest & E & Hlen & Hpre).
    destruct a as [k o [srv|e] now|q closed]; cbn [exec fst
      createSession_settle killSession_settle sessions]; rewrite ?E.
    + exists pre, (JsMap.set k (new_session o srv now) rest).
      now rewrite set_skip_empty.
    + now exists pre, rest.
    + exists pre, (JsMap.delete (kp_sessionId q) rest).
      now rewrite delete_skip_empty.
  - intros (pre & e & rest & E & Hlen & Hpre & He).
    destruct a as [k o [srv|err] now|q closed]; cbn [exec fst
      createSession_settle killSession_settle sessions]; rewrite ?E.
    + rewrite set_skip_empty by assumption.
      destruct He as [->|[s ->]]; cbn [JsMap.set].
      * exists pre, None, (JsMap.set k (new_session o srv now) rest). auto.
      * destruct (String.eqb (kp_sessionId p) k).
        -- exists pre, (Some (kp_sessionId p, new_session o srv now)), rest.
           repeat split; eauto.
        -- exists pre, (Some (kp_sessionId p, s)),
             (JsMap.set k (new_session o srv now) rest).
           repeat split; eauto.
    + exists pre, e, rest. auto.
    + rewrite delete_skip_empty by assumption.
      destruct He as [->|[s ->]]; cbn [JsMap.delete].
      * exists pre, None, (JsMap.delete (kp_sessionId q) rest). auto.
      * destruct (String.eqb (kp_sessionId p) (kp_sessionId q)).
        -- exists pre, None, rest. auto.
        -- exists pre, (Some (kp_sessionId p, s)),
             (JsMap.delete (kp_sessionId q) rest).
           repeat split; eauto.
Qed.

(** Whenever [cleanup] returns, whatever was served in between, the store
    is empty at that moment. *)
Lemma cleanup_completes_drained st mgr final :
  cleanup_completes st mgr final ->
  passed_empty st mgr ->
  getActiveCount final = 0.
Proof.
  induction 1 as [i mgr Hnext
                 |i mgr k s j b eff final Hnext Hcall _ IH
                 |i mgr k s j p eff final Hnext Hcall _ IH
                 |j p closed mgr final _ IH
                 |st a mgr final _ IH]; intros Hinv.
  - destruct Hinv as (pre & rest & E & <- & Hpre).
    rewrite E, next_at_prefix in Hnext. apply scan_none in Hnext.
    unfold getActiveCount. rewrite E. apply size_all_empty.
    apply Forall_app. now split.
  - exfalso. destruct Hinv as (pre & rest & E & <- & Hpre).
    rewrite E, next_at_prefix in Hnext.
    apply scan_some in Hnext as (mid & rest' & -> & Hmid & _).
    unfold killSession_call in Hcall. rewrite E in Hcall.
    rewrite (get_skip_empty k pre) in Hcall by exact Hpre.
    rewrite (get_skip_empty k mid) in Hcall by exact Hmid.
    cbn [JsMap.get] in Hcall. rewrite String.eqb_refl in Hcall.
    discriminate Hcall.
  - apply IH. destruct Hinv as (pre & rest & E & <- & Hpre).
    rewrite E, next_at_prefix in Hnext.
    apply scan_some in Hnext as (mid & rest' & -> & Hmid & ->).
    unfold killSession_call in Hcall. rewrite E in Hcall.
    rewrite (get_skip_empty k pre) in Hcall by exact Hpre.
    rewrite (get_skip_empty k mid) in Hcall by exact Hmid.
    cbn [JsMap.get] in Hcall. rewrite String.eqb_refl in Hcall.
    injection Hcall as <- _.
    exists (pre ++ mid), (Some (k, s)), rest'. cbn [kp_sessionId].
    repeat split.
    + now rewrite E, app_assoc.
    + now rewrite length_app.
    + apply Forall_app. now split.
    + right. now exists s.
  - apply IH. destruct Hinv as (pre & e & rest & E & <- & Hpre & He).
    cbn [killSession_settle fst sessions]. rewrite E.
    rewrite delete_skip_empty by assumption.
    exists (pre ++ [None]).
    destruct He as [->|[s ->]]; cbn [JsMap.delete];
      rewrite ?String.eqb_refl.
    + exists (JsMap.delete (kp_sessionId p) rest).
      rewrite <- app_assoc, <- length_snoc.
      repeat split. now apply all_empty_snoc.
    + exists rest. rewrite <- app_assoc, <- length_snoc.
      repeat split. now apply all_empty_snoc.
  - apply IH. now apply exec_passed_empty.
Qed.

(** The run of [cleanup] in which nothing else is served is one of them. *)
Lemma cleanup_loop_completes close fuel : forall i mgr final eff,
  cleanup_loop fuel close i mgr = Some (final, eff) ->
  cleanup_completes (AtPosition i) mgr final.
Proof.
  induction fuel as [|fuel IH]; intros i mgr final eff H; cbn [cleanup_loop] in H;
    destruct (JsMap.next (sessions mgr) i) as [[[k s] j]|] eqn:Hnext;
    try discriminate H;
    try (injection H as <- _; now apply cc_exhausted).
  unfold killSession in H.
  destruct (killSession_call k mgr) as [[b|p] eff0] eqn:Hcall.
  - destruct (cleanup_loop fuel close j mgr) as [[m2 e2]|] eqn:Hrest;
      [| discriminate H].
    injection H as <- _.
    eapply cc_not_found; eauto.
  - cbn [killSession_settle] in H.
    destruct (cleanup_loop fuel close j _) as [[m2 e2]|] eqn:Hrest;
      [| discriminate H].
    injection H as <- _.
    eapply cc_close; eauto.
    apply cc_settle with (closed := close (server (kp_session p))).
    eapply IH. exact Hrest.
Qed.

Lemma cleanup_completes_alone close mgr final eff :
  cleanup close mgr = Some (final, eff) ->
  cleanup_completes (AtPosition 0) mgr final.
Proof.
  unfold cleanup, cleanup_with. intros H.
  destruct (cleanup_loop (length (sessions mgr)) close 0 mgr)
    as [[m e]|] eqn:Hloop; [| discriminate H].
  injection H as <- _.
  exact (cleanup_loop_completes close _ 0 mgr m e Hloop).
Qed.

Lemma cleanup_completes_from_start mgr final :
  cleanup_completes (AtPosition 0) mgr final -> getActiveCount final = 0.
Proof.
  intros H. apply (cleanup_completes_drained _ _ _ H).
  exists [], (sessions mgr). repeat split. constructor.
Qed.

(** ** The model at work *)

Example launch_options_of_request :
  launch_options (request_via "http://proxy-a.example:8080") =
  {| lo_headless := false;
     lo_args := [ "--no-sandbox"; "--disable-setuid-sandbox";
                  "--disable-dev-shm-usage";
                  "--disable-accelerated-2d-canvas"; "--disable-gpu";
                  "--window-size=800,600" ];
     lo_proxy := Some {| px_server := "http://proxy-a.example:8080";
                         px_username := Some "user";
                         px_password := Some "secret" |} |}.
Proof. reflexivity. Qed.

(** Create a session, read it back, delete it, delete it again. *)
Example create_get_delete_delete :
  let o := {| rq_headless := Some false; rq_proxy := None;
              rq_viewport := Some {| width := 800; height := 600 |};
              rq_userAgent := None |} in
  let '(mgr1, _, _) :=
    createSession "sess_a" o (Fulfilled (sample_server 1))
      "2026-01-29T00:00:00.000Z" new_BrowserManager in
  let '(mgr2, first, eff2) := killSession close_ok "sess_a" mgr1 in
  let '(mgr3, second, eff3) := killSession close_ok "sess_a" mgr2 in
  option_map si_options (getSession "sess_a" mgr1)
    = Some {| so_headless := false; so_proxy := false;
              so_viewport := {| width := 800; height := 600 |} |}
  /\ first = true /\ eff2 = [ServerClose (sample_server 1)]
  /\ listSessions mgr2 = []
  /\ second = false /\ eff3 = [] /\ mgr3 = mgr2.
Proof. simpl. repeat split. Qed.

(** [cleanup] over two sessions of which the first refuses to close. *)
Example cleanup_two_sessions :
  cleanup (fun srv => if Nat.eqb (handle srv) 1
                      then Rejected {| message := "Target closed" |}
                      else Fulfilled tt)
          (run two_sessions new_BrowserManager)
  = Some ({| sessions := [None; None] |},
          [ConsoleLog "Cleaning up 2 browser sessions...";
           ServerClose (sample_server 1);
           ConsoleError "Error closing server for session sess_a:"
             "Target closed";
           ServerClose (sample_server 2)]).
Proof. reflexivity. Qed.

(** A session created while [cleanup] waits for a [close()] is reached by
    the iterator and closed as well. *)
Example cleanup_reaches_late_session :
  cleanup_completes (AtPosition 0) one_session {| sessions := [None; None] |}.
Proof.
  eapply cc_close; [reflexivity | reflexivity |].
  apply cc_meanwhile
    with (a := CreateSettles "sess_b" no_options (Fulfilled (sample_server 2))
                 "2026-01-29T00:00:02.000Z").
  apply cc_settle with (closed := Fulfilled tt).
  eapply cc_close; [reflexivity | reflexivity |].
  apply cc_settle with (closed := Fulfilled tt).
  apply cc_exhausted. reflexivity.
Qed.

(** ** Termination of a session *)

(** C3: for an id present in the registry, [killSession] removes the entry
    and returns [true] whatever the driver answers to [close()], a
    rejection included: the rejection is caught and printed, the entry is
    deleted all the same, and the call neither throws nor returns [false].
    The same holds when other requests ran while [close()] was pending:
    the resumed call deletes the id from whatever the store then is. *)
Theorem killSession_removes_even_if_close_fails
  (close : server_handle -> settled unit) (sessionId : string) (s : session)
  (mgr : BrowserManager) :
  reachable mgr ->
  JsMap.get sessionId (sessions mgr) = Some s ->
  killSession close sessionId mgr =
    ({| sessions := JsMap.delete sessionId (sessions mgr) |}, true,
     ServerClose (server s) ::
     match close (server s) with
     | Fulfilled _ => []
     | Rejected err =>
         [ConsoleError
            ("Error closing server for session " ++ sessionId ++ ":")%string
            (message err)]
     end)
  /\ getSession sessionId
       {| sessions := JsMap.delete sessionId (sessions mgr) |} = None
  /\ S (getActiveCount {| sessions := JsMap.delete sessionId (sessions mgr) |})
     = getActiveCount mgr
  /\ (forall closed later,
        reachable later ->
        let r := killSession_settle
                   {| kp_sessionId := sessionId; kp_session := s |}
                   closed later in
        snd (fst r) = true /\ getSession sessionId (fst (fst r)) = None).
Proof.
  intros Hreach Hget. repeat split.
  - now apply killSession_present.
  - apply getSession_none. simpl. apply get_delete_same.
    auto with jsmap.
  - unfold getActiveCount. simpl. now apply size_delete_present with s.
  - apply getSession_none. simpl. apply get_delete_same.
    auto with jsmap.
Qed.

Lemma killSession_removes_even_if_close_fails_witness :
  reachable one_session
  /\ JsMap.get "sess_a" (sessions one_session)
     = Some (new_session no_options (sample_server 1)
               "2026-01-29T00:00:00.000Z")
  /\ killSession close_fails "sess_a" one_session =
     ({| sessions := [None] |}, true,
      [ServerClose (sample_server 1);
       ConsoleError "Error closing server for session sess_a:"
         "Target closed"]).
Proof.
  split; [exact one_session_reachable | split; [reflexivity |]].
  exact (proj1 (killSession_removes_even_if_close_fails close_fails "sess_a"
                  (new_session no_options (sample_server 1)
                     "2026-01-29T00:00:00.000Z")
                  one_session one_session_reachable eq_refl)).
Defined.

(** C7: for an id that is not in the registry, because no session was
    stored under it or because [killSession] was already run for it,
    [killSession] returns [false], leaves the registry as it is and calls
    nothing outside, and [getSession] returns [null]. *)
Theorem absent_id_is_not_found
  (close : server_handle -> settled unit) (sessionId : string)
  (mgr : BrowserManager) :
  (JsMap.get sessionId (sessions mgr) = None
   \/ exists close0 mgr0,
        reachable mgr0
        /\ mgr = fst (fst (killSession close0 sessionId mgr0))) ->
  killSession close sessionId mgr = (mgr, false, [])
  /\ getSession sessionId mgr = None.
Proof.
  intros H.
  assert (Hnone : JsMap.get sessionId (sessions mgr) = None).
  { destruct H as [H|(close0 & mgr0 & Hreach & ->)]; [assumption |].
    apply killSession_leaves_absent. now apply reachable_wf. }
  split.
  - now apply killSession_absent.
  - now apply getSession_none.
Qed.

Lemma absent_id_is_not_found_witness :
  (JsMap.get "sess_a"
     (sessions (fst (fst (killSession close_ok "sess_a" one_session)))) = None
   \/ exists close0 mgr0,
        reachable mgr0
        /\ fst (fst (killSession close_ok "sess_a" one_session))
           = fst (fst (killSession close0 "sess_a" mgr0)))
  /\ snd (fst (killSession close_ok "sess_a"
                 (fst (fst (killSession close_ok "sess_a" one_session)))))
     = false.
Proof.
  assert (H : JsMap.get "sess_a"
     (sessions (fst (fst (killSession close_ok "sess_a" one_session)))) = None
   \/ exists close0 mgr0,
        reachable mgr0
        /\ fst (fst (killSession close_ok "sess_a" one_session))
           = fst (fst (killSession close0 "sess_a" mgr0))).
  { right. exists close_ok, one_session.
    split; [exact one_session_reachable | reflexivity]. }
  split; [exact H |].
  exact (f_equal (fun r => snd (fst r))
           (proj1 (absent_id_is_not_found close_ok "sess_a" _ H))).
Defined.

(** ** Creation *)

(** C6: when the driver's launch fails, [createSession] leaves the
    registry exactly as it was and fails with the very error the driver
    raised; the HTTP handler answers 500 with that error's message. *)
Theorem createSession_launch_failure
  (sessionId nano : string) (o body : session_request) (err : error)
  (now : string) (mgr : BrowserManager) :
  createSession sessionId o (Rejected err) now mgr
    = (mgr, Rejected err, [LaunchServer (launch_options o)])
  /\ fst (post_sessions nano body (Rejected err) now mgr)
     = (mgr, Http500 (message err)).
Proof. split; reflexivity. Qed.

(** C2 (as amended): when the launch succeeds, [createSession] followed
    at once by [getSession] of the same id returns a session whose status
    is ["active"], whose endpoint is the string the launched server
    reports (non-empty when the driver's is), whose creation time is the
    clock reading, and whose [options] hold the requested headless flag
    and viewport, defaults applied, together with a boolean that tells
    whether a proxy was requested, in place of the proxy descriptor. *)
Theorem create_then_get
  (sessionId : string) (o : session_request) (srv : server_handle)
  (now : string) (mgr : BrowserManager) :
  ws srv <> EmptyString ->
  let mgr' := fst (fst (createSession sessionId o (Fulfilled srv) now mgr)) in
  getSession sessionId mgr' =
    Some {| si_sessionId := sessionId;
            si_wsEndpoint := ws srv;
            si_createdAt := now;
            si_status := "active";
            si_options :=
              {| so_headless :=
                   match rq_headless o with Some b => b | None => true end;
                 so_proxy :=
                   match rq_proxy o with Some _ => true | None => false end;
                 so_viewport :=
                   match rq_viewport o with
                   | Some v => v
                   | None => {| width := 1920; height := 1080 |}
                   end |} |}
  /\ option_map si_wsEndpoint (getSession sessionId mgr') <> Some EmptyString.
Proof.
  intros Hws mgr'. subst mgr'.
  assert (E : getSession sessionId
                (fst (fst (createSession sessionId o (Fulfilled srv) now mgr)))
              = Some (info_of sessionId (new_session o srv now))).
  { unfold getSession. simpl. now rewrite get_set_same. }
  rewrite E. split; [reflexivity |].
  simpl. intros [= H]. contradiction.
Qed.

Lemma create_then_get_witness :
  ws (sample_server 1) <> EmptyString
  /\ getSession "sess_a" one_session =
     Some {| si_sessionId := "sess_a";
             si_wsEndpoint := "ws://127.0.0.1:9222/browser";
             si_createdAt := "2026-01-29T00:00:00.000Z";
             si_status := "active";
             si_options :=
               {| so_headless := true;
                  so_proxy := false;
                  so_viewport := {| width := 1920; height := 1080 |} |} |}.
Proof.
  assert (H : ws (sample_server 1) <> EmptyString) by (simpl; discriminate).
  split; [exact H |].
  exact (proj1 (create_then_get "sess_a" no_options (sample_server 1)
                  "2026-01-29T00:00:00.000Z" new_BrowserManager H)).
Defined.

(** C2, the claim as written fails: the stored options do not hold the
    proxy descriptor.  Two requests that differ in the proxy they ask for
    are answered by [getSession] with the same options, in which [proxy]
    is just [true]. *)
Lemma stored_options_forget_proxy_descriptor :
  let o1 := request_via "http://proxy-a.example:8080" in
  let o2 := request_via "http://proxy-b.example:3128" in
  let get_after o :=
    getSession "sess_a"
      (fst (fst (createSession "sess_a" o (Fulfilled (sample_server 1))
                   "2026-01-29T00:00:00.000Z" new_BrowserManager))) in
  rq_proxy o1 <> rq_proxy o2
  /\ get_after o1 = get_after o2
  /\ option_map (fun i => so_proxy (si_options i)) (get_after o1) = Some true.
Proof.
  simpl. repeat split. intros H. discriminate H.
Qed.

(** ** Counting and listing *)

(** C8: in every state of the registry, [getActiveCount()] is the length
    of the array [listSessions()] returns. *)
Theorem count_is_length_of_list (mgr : BrowserManager) :
  getActiveCount mgr = length (listSessions mgr).
Proof.
  unfold getActiveCount, listSessions.
  rewrite length_map. apply size_entries.
Qed.

(** ** What the callers get to see *)

(** C10: the stored server object never reaches a caller.  [getSession]
    and [listSessions] answer the same whatever server objects the
    registry holds, and what [createSession] returns is built from the id,
    the endpoint string and the clock reading alone, launches that differ
    in the server's identity only being answered alike. *)
Theorem server_handle_not_exposed
  (f : string -> server_handle -> server_handle) (mgr : BrowserManager)
  (sessionId : string) (o : session_request) (h h' : nat) (endpoint : string)
  (now : string) :
  getSession sessionId (reseat f mgr) = getSession sessionId mgr
  /\ listSessions (reseat f mgr) = listSessions mgr
  /\ snd (fst (createSession sessionId o
                 (Fulfilled {| handle := h; ws := endpoint |}) now mgr))
     = Fulfilled {| ci_sessionId := sessionId;
                    ci_wsEndpoint := endpoint;
                    ci_createdAt := now;
                    ci_status := "active" |}
  /\ snd (fst (createSession sessionId o
                 (Fulfilled {| handle := h; ws := endpoint |}) now mgr))
     = snd (fst (createSession sessionId o
                   (Fulfilled {| handle := h'; ws := endpoint |}) now mgr)).
Proof.
  repeat split.
  - unfold getSession, reseat. simpl.
    induction (sessions mgr) as [|[[k s]|] rest IH]; simpl; auto.
    destruct (String.eqb k sessionId); auto.
  - unfold listSessions, reseat. simpl.
    induction (sessions mgr) as [|[[k s]|] rest IH]; simpl; auto.
    now rewrite IH.
Qed.

(** ** Status *)

(** C9 (as amended): for an id present in the registry, [killSession]
    calls [close()] on the stored server while the session is still in the
    store with the status it was created with, ["active"]; the status
    field is never written again.  Once [close()] has settled, the entry
    is removed and [true] returned. *)
Theorem killSession_closes_then_removes
  (sessionId : string) (s : session) (mgr : BrowserManager) :
  reachable mgr ->
  JsMap.get sessionId (sessions mgr) = Some s ->
  killSession_call sessionId mgr =
    (inr {| kp_sessionId := sessionId; kp_session := s |},
     [ServerClose (server s)])
  /\ option_map si_status (getSession sessionId mgr) = Some "active"
  /\ (forall closed,
        let r := killSession_settle
                   {| kp_sessionId := sessionId; kp_session := s |}
                   closed mgr in
        snd (fst r) = true /\ getSession sessionId (fst (fst r)) = None).
Proof.
  intros Hreach Hget. repeat split.
  - unfold killSession_call. now rewrite Hget.
  - unfold getSession. rewrite Hget. simpl. f_equal.
    apply (reachable_all_active mgr Hreach (sessionId, s)).
    now apply get_some_entries.
  - apply getSession_none. simpl. apply get_delete_same.
    auto with jsmap.
Qed.

Lemma killSession_closes_then_removes_witness :
  reachable one_session
  /\ JsMap.get "sess_a" (sessions one_session)
     = Some (new_session no_options (sample_server 1)
               "2026-01-29T00:00:00.000Z")
  /\ snd (killSession_call "sess_a" one_session)
     = [ServerClose (sample_server 1)].
Proof.
  split; [exact one_session_reachable | split; [reflexivity |]].
  exact (f_equal snd
           (proj1 (killSession_closes_then_removes "sess_a"
                     (new_session no_options (sample_server 1)
                        "2026-01-29T00:00:00.000Z")
                     one_session one_session_reachable eq_refl))).
Defined.

(** C9, the claim as written fails: at the moment [killSession] has
    called [close()] and waits for it, the session is still in the store
    with status ["active"], not ["terminating"]. *)
Lemma status_is_active_while_closing :
  snd (killSession_call "sess_a" one_session)
    = [ServerClose (sample_server 1)]
  /\ option_map si_status (getSession "sess_a" one_session) = Some "active"
  /\ option_map si_status (getSession "sess_a" one_session)
     <> Some "terminating".
Proof.
  repeat split. intros H. discriminate H.
Qed.

(** ** Shutdown *)

Lemma get_all_empty {V} key (slots : JsMap.t V) :
  all_empty slots -> JsMap.get key slots = None.
Proof. induction 1 as [|e l He _ IH]; simpl; auto. now subst e. Qed.

Lemma all_empty_cleared {V} (slots : JsMap.t V) :
  all_empty (V := V) (map (fun _ => None) slots).
Proof. induction slots; simpl; constructor; auto. Qed.

Lemma entries_all_empty {V} (slots : JsMap.t V) :
  all_empty slots -> JsMap.entries slots = [].
Proof. induction 1 as [|e l He _ IH]; simpl; auto. now subst e. Qed.

(** C4 (as amended): [cleanup()], run with nothing else served in
    between, comes to its end and drains the registry: it calls [close()]
    once on the server of every session in the store, in insertion order,
    whether or not the calls succeed, and leaves [getActiveCount() = 0]
    and an empty [listSessions()].  When other requests are served while
    it waits, the store is empty all the same at the moment it returns.
    The registry keeps no record of a shutdown: a [createSession] made
    afterwards is accepted and registers its session whenever the launch
    succeeds. *)
Theorem cleanup_drains_registry
  (close : server_handle -> settled unit) (mgr : BrowserManager) :
  let drained := {| sessions := map (fun _ => None) (sessions mgr) |} in
  cleanup close mgr =
    Some (drained,
          ConsoleLog
            ("Cleaning up "
               ++ number_to_string (Z.of_nat (getActiveCount mgr))
               ++ " browser sessions...")%string
          :: flat_map (close_effects close) (JsMap.entries (sessions mgr)))
  /\ getActiveCount drained = 0
  /\ listSessions drained = []
  /\ (forall final,
        cleanup_completes (AtPosition 0) mgr final ->
        getActiveCount final = 0)
  /\ (forall sessionId o srv now,
        let r := createSession sessionId o (Fulfilled srv) now drained in
        snd (fst r) = Fulfilled {| ci_sessionId := sessionId;
                                   ci_wsEndpoint := ws srv;
                                   ci_createdAt := now;
                                   ci_status := "active" |}
        /\ getActiveCount (fst (fst r)) = 1
        /\ option_map si_status (getSession sessionId (fst (fst r)))
           = Some "active").
Proof.
  intros drained. subst drained. repeat split.
  - unfold cleanup, cleanup_with. destruct mgr as [slots]. cbn [sessions].
    pose proof (cleanup_loop_drains close slots [] (length slots)
                  (Forall_nil _) (le_n _)) as H.
    cbn [app length] in H. rewrite H. reflexivity.
  - unfold getActiveCount. simpl. apply size_all_empty, all_empty_cleared.
  - unfold listSessions. simpl.
    now rewrite entries_all_empty by apply all_empty_cleared.
  - apply cleanup_completes_from_start.
  - unfold getActiveCount. simpl. rewrite size_set.
    rewrite get_all_empty by apply all_empty_cleared.
    now rewrite size_all_empty by apply all_empty_cleared.
  - unfold getSession. simpl. now rewrite get_set_same.
Qed.

(** C4, the claim as written fails: there is no [ShuttingDown] error.
    While [cleanup()] waits for the first [close()], and again after it
    has drained the store, [createSession] is fulfilled and the registry
    holds the new session. *)
Lemma create_after_cleanup_is_accepted :
  let created mgr :=
    createSession "sess_b" no_options (Fulfilled (sample_server 2))
      "2026-01-29T00:00:02.000Z" mgr in
  (exists s p,
     JsMap.next (sessions one_session) 0 = Some (("sess_a", s), 1)
     /\ killSession_call "sess_a" one_session
        = (inr p, [ServerClose (sample_server 1)])
     /\ (forall err, snd (fst (created one_session)) <> Rejected err)
     /\ getActiveCount (fst (fst (created one_session))) = 2)
  /\ (exists drained eff,
        cleanup close_ok one_session = Some (drained, eff)
        /\ getActiveCount drained = 0
        /\ (forall err, snd (fst (created drained)) <> Rejected err)
        /\ getActiveCount (fst (fst (created drained))) = 1).
Proof.
  split.
  - eexists. eexists. repeat split. intros err H. discriminate H.
  - eexists. eexists. split; [reflexivity |]. repeat split.
    intros err H. discriminate H.
Qed.

(** ** Ids and server handles *)

Lemma set_image_in {V B} (g : V -> B) key (v : V) m x :
  In x (map (fun kv => g (snd kv)) (JsMap.entries (JsMap.set key v m))) ->
  x = g v \/ In x (map (fun kv => g (snd kv)) (JsMap.entries m)).
Proof.
  intros H. apply in_map_iff in H as (kv & <- & Hin).
  apply entries_set_in in Hin as [->|Hin]; [now left | right].
  apply in_map_iff. now exists kv.
Qed.

Lemma delete_image_in {V B} (g : V -> B) key (m : JsMap.t V) x :
  In x (map (fun kv => g (snd kv)) (JsMap.entries (JsMap.delete key m))) ->
  In x (map (fun kv => g (snd kv)) (JsMap.entries m)).
Proof.
  intros H. apply in_map_iff in H as (kv & <- & Hin).
  apply entries_delete_in in Hin. apply in_map_iff. now exists kv.
Qed.

Lemma set_image_nodup {V B} (g : V -> B) key (v : V) m :
  NoDup (map (fun kv => g (snd kv)) (JsMap.entries m)) ->
  ~ In (g v) (map (fun kv => g (snd kv)) (JsMap.entries m)) ->
  NoDup (map (fun kv => g (snd kv)) (JsMap.entries (JsMap.set key v m))).
Proof.
  induction m as [|[[k0 w]|] rest IH]; simpl; intros Hnd Hfresh.
  - constructor; [intros [] | constructor].
  - inversion Hnd as [|? ? Hw Hrest]; subst.
    destruct (String.eqb k0 key); simpl.
    + constructor; [tauto | assumption].
    + constructor; [| apply IH; tauto].
      intros Hin. apply set_image_in in Hin as [E|Hin]; [| contradiction].
      apply Hfresh. now left.
  - now apply IH.
Qed.

Lemma delete_image_nodup {V B} (g : V -> B) key (m : JsMap.t V) :
  NoDup (map (fun kv => g (snd kv)) (JsMap.entries m)) ->
  NoDup (map (fun kv => g (snd kv)) (JsMap.entries (JsMap.delete key m))).
Proof.
  induction m as [|[[k0 w]|] rest IH]; simpl; intros Hnd; auto.
  inversion Hnd as [|? ? Hw Hrest]; subst.
  destruct (String.eqb k0 key); simpl; auto.
  constructor; [| now apply IH].
  intros Hin. apply Hw. now apply delete_image_in in Hin.
Qed.

Lemma owned_handles_servers mgr :
  map handle (owned_servers mgr) = owned_handles mgr.
Proof. unfold owned_servers, owned_handles. now rewrite map_map. Qed.

(** Handles stay pairwise distinct as long as the driver hands out handles
    it has not handed out before ([seen]). *)
Lemma run_handles_distinct acts : forall mgr seen,
  NoDup (owned_handles mgr) ->
  incl (owned_handles mgr) seen ->
  NoDup (seen ++ map handle (launched_servers acts)) ->
  NoDup (owned_handles (run acts mgr)).
Proof.
  induction acts as [|a acts IH]; intros mgr seen Hnd Hincl Hfresh; auto.
  destruct a as [k o [srv|e] now|p closed]; cbn [run fold_left exec].
  - cbn [launched_servers map] in Hfresh.
    assert (Hnew : ~ In (handle srv) seen).
    { apply NoDup_remove_2 in Hfresh. intros H. apply Hfresh.
      apply in_or_app. now left. }
    apply (IH _ (seen ++ [handle srv])).
    + apply (set_image_nodup (fun s => handle (server s))); auto.
    + intros x Hx.
      apply (set_image_in (fun s => handle (server s))) in Hx as [->|Hx];
        apply in_or_app; [right; now left | left; auto].
    + now rewrite <- app_assoc.
  - now apply (IH _ seen).
  - apply (IH _ seen); auto.
    + now apply (delete_image_nodup (fun s => handle (server s))).
    + intros x Hx. apply Hincl.
      now apply (delete_image_in (fun s => handle (server s))) in Hx.
Qed.

Lemma run_entries_registered acts : forall mgr,
  incl (JsMap.entries (sessions (run acts mgr)))
       (JsMap.entries (sessions mgr) ++ registered acts).
Proof.
  induction acts as [|a acts IH]; intros mgr kv Hin.
  - rewrite app_nil_r. exact Hin.
  - cbn [run fold_left] in Hin. apply IH in Hin.
    apply in_app_or in Hin as [Hin|Hin].
    + destruct a as [k o [srv|e] now|p closed]; cbn [exec] in Hin; simpl in Hin.
      * apply entries_set_in in Hin as [->|Hin]; apply in_or_app;
          [right; now left | now left].
      * apply in_or_app. now left.
      * apply entries_delete_in in Hin. apply in_or_app. now left.
    + apply in_or_app. right.
      destruct a as [k o [srv|e] now|p closed]; simpl; auto.
Qed.

Lemma registered_servers acts :
  map (fun r => handle (server (snd r))) (registered acts)
  = map handle (launched_servers acts).
Proof.
  induction acts as [|[k o [srv|e] now|p closed] acts IH]; simpl; auto.
  now rewrite IH.
Qed.

Lemma nodup_map_inj {A B} (f : A -> B) (l : list A) x y :
  NoDup (map f l) -> In x l -> In y l -> f x = f y -> x = y.
Proof.
  induction l as [|a l IH]; simpl; intros Hnd Hx Hy E; [contradiction |].
  inversion Hnd as [|? ? Hn Hr]; subst.
  destruct Hx as [->|Hx], Hy as [->|Hy]; auto.
  - exfalso. apply Hn. rewrite E. now apply in_map.
  - exfalso. apply Hn. rewrite <- E. now apply in_map.
Qed.

Lemma serve_one_exec q mgr : fst (serve_one q mgr) = exec (to_action q) mgr.
Proof.
  destruct q as [nano body [srv|e] now|p closed]; reflexivity.
Qed.

Lemma serve_run reqs : forall mgr,
  fst (serve reqs mgr) = run (map to_action reqs) mgr.
Proof.
  induction reqs as [|q reqs IH]; intros mgr; [reflexivity |].
  cbn [serve map run fold_left].
  destruct (serve_one q mgr) as [m1 a1] eqn:E1.
  destruct (serve reqs m1) as [m2 a2] eqn:E2.
  cbn [fst]. rewrite <- (serve_one_exec q mgr), E1. cbn [fst].
  now rewrite <- IH, E2.
Qed.

Lemma serve_reachable reqs : reachable (fst (serve reqs new_BrowserManager)).
Proof. exists (map to_action reqs). symmetry. apply serve_run. Qed.

Lemma serve_answered_ids reqs : forall mgr,
  answered_ids (snd (serve reqs mgr)) = assigned_ids (map to_action reqs).
Proof.
  induction reqs as [|q reqs IH]; intros mgr; [reflexivity |].
  cbn [serve map].
  destruct (serve_one q mgr) as [m1 a1] eqn:E1.
  destruct (serve reqs m1) as [m2 a2] eqn:E2.
  cbn [snd]. specialize (IH m1). rewrite E2 in IH. cbn [snd] in IH.
  destruct q as [nano body [srv|e] now|p closed];
    cbn in E1; injection E1 as <- <-; cbn; now rewrite IH.
Qed.

Lemma launched_servers_of_requests reqs :
  launched_servers (map to_action reqs) = launched_by reqs.
Proof.
  induction reqs as [|[nano body [srv|e] now|p closed] reqs IH]; simpl; auto.
  now rewrite IH.
Qed.

Lemma generated_app reqs1 reqs2 :
  generated (reqs1 ++ reqs2) = generated reqs1 ++ generated reqs2.
Proof.
  induction reqs1 as [|[nano body l now|p closed] reqs1 IH]; simpl; auto.
  now rewrite IH.
Qed.

Lemma registered_app acts1 acts2 :
  registered (acts1 ++ acts2) = registered acts1 ++ registered acts2.
Proof.
  induction acts1 as [|[k o [srv|e] now|p closed] acts1 IH]; simpl; auto.
  now rewrite IH.
Qed.

Lemma registered_assigned acts kv :
  In kv (registered acts) -> In (fst kv) (assigned_ids acts).
Proof.
  induction acts as [|[k o [srv|e] now|p closed] acts IH]; simpl; auto.
  intros [<-|H]; [now left | right; auto].
Qed.

(** An id a history assigned is ["sess_"] followed by a string the
    generator returned during that history. *)
Lemma assigned_generated reqs id :
  In id (assigned_ids (map to_action reqs)) ->
  exists nano, id = ("sess_" ++ nano)%string /\ In nano (generated reqs).
Proof.
  induction reqs as [|[nano body [srv|e] now|p closed] reqs IH]; simpl.
  - contradiction.
  - intros [<-|H]; [exists nano; split; [reflexivity | now left] |].
    destruct (IH H) as (n & -> & Hn). exists n. split; [reflexivity | now right].
  - intros H. destruct (IH H) as (n & -> & Hn).
    exists n. split; [reflexivity | now right].
  - exact IH.
Qed.

Lemma sess_prefix_inj a b :
  ("sess_" ++ a)%string = ("sess_" ++ b)%string -> a = b.
Proof. simpl. intros [= H]. exact H. Qed.

Lemma assigned_ids_nodup reqs :
  NoDup (generated reqs) -> NoDup (assigned_ids (map to_action reqs)).
Proof.
  induction reqs as [|[nano body [srv|e] now|p closed] reqs IH]; simpl;
    intros Hnd.
  - constructor.
  - inversion Hnd as [|? ? Hn Hr]; subst. constructor; [| auto].
    intros Hin. apply assigned_generated in Hin as (n & E & Hin).
    apply sess_prefix_inj in E. subst n. contradiction.
  - inversion Hnd; auto.
  - auto.
Qed.

(** The sessions in the store after part of a history were registered
    during the whole of it. *)
Lemma stored_was_registered before rest kv :
  In kv (JsMap.entries (sessions (fst (serve before new_BrowserManager)))) ->
  In kv (registered (map to_action (before ++ rest))).
Proof.
  intros Hin. rewrite serve_run in Hin.
  apply run_entries_registered in Hin. simpl in Hin.
  rewrite map_app, registered_app. apply in_or_app. now left.
Qed.

(** C1: as long as the id generator does not return the same string
    twice and the driver does not hand out the same server twice, the
    ids the create requests of a history are answered with are pairwise
    different, over the whole history and so whether or not the sessions
    have been terminated since; and two registry entries, taken from the
    store at the same or at different moments of the history, own the
    same server handle only if they are one and the same session under
    one and the same id. *)
Theorem ids_unique_and_handles_unshared (reqs : list request) :
  NoDup (generated reqs) ->
  NoDup (map handle (launched_by reqs)) ->
  NoDup (answered_ids (snd (serve reqs new_BrowserManager)))
  /\ (forall before1 rest1 before2 rest2 entry1 entry2,
        reqs = before1 ++ rest1 ->
        reqs = before2 ++ rest2 ->
        In entry1
           (JsMap.entries (sessions (fst (serve before1 new_BrowserManager)))) ->
        In entry2
           (JsMap.entries (sessions (fst (serve before2 new_BrowserManager)))) ->
        handle (server (snd entry1)) = handle (server (snd entry2)) ->
        entry1 = entry2).
Proof.
  intros Hgen Hsrv. split.
  - rewrite serve_answered_ids. now apply assigned_ids_nodup.
  - intros before1 rest1 before2 rest2 entry1 entry2 E1 E2 H1 H2 Hsame.
    apply (stored_was_registered before1 rest1) in H1.
    apply (stored_was_registered before2 rest2) in H2.
    rewrite <- E1 in H1. rewrite <- E2 in H2.
    apply (nodup_map_inj (fun r => handle (server (snd r)))
             (registered (map to_action reqs))); auto.
    now rewrite registered_servers, launched_servers_of_requests.
Qed.

Lemma ids_unique_and_handles_unshared_witness :
  NoDup (generated
           [first_post; second_post;
            KillResumes {| kp_sessionId := "sess_V1StGXR8_Z5jdHi6";
                           kp_session := new_session no_options
                                           (sample_server 1)
                                           "2026-01-29T00:00:00.000Z" |}
              (Fulfilled tt);
            third_post])
  /\ NoDup (map handle
              (launched_by
                 [first_post; second_post;
                  KillResumes {| kp_sessionId := "sess_V1StGXR8_Z5jdHi6";
                                 kp_session := new_session no_options
                                                 (sample_server 1)
                                                 "2026-01-29T00:00:00.000Z" |}
                    (Fulfilled tt);
                  third_post]))
  /\ NoDup ["sess_V1StGXR8_Z5jdHi6"; "sess_3bQk0xTq9LwZr_Ya";
            "sess_pD7-mN2cVu_8sEoK"].
Proof.
  assert (Hgen : NoDup ["V1StGXR8_Z5jdHi6"; "3bQk0xTq9LwZr_Ya";
                        "pD7-mN2cVu_8sEoK"]).
  { repeat constructor; simpl; intuition discriminate. }
  assert (Hsrv : NoDup [1; 2; 3]).
  { repeat constructor; simpl; intuition discriminate. }
  split; [exact Hgen | split; [exact Hsrv |]].
  exact (proj1 (ids_unique_and_handles_unshared
                  [first_post; second_post;
                   KillResumes {| kp_sessionId := "sess_V1StGXR8_Z5jdHi6";
                                  kp_session := new_session no_options
                                                  (sample_server 1)
                                                  "2026-01-29T00:00:00.000Z" |}
                     (Fulfilled tt);
                   third_post]
                  Hgen Hsrv)).
Defined.

(** C5: ids not being reused (the generator does not return the same
    string twice), once [killSession(id)] has returned [true],
    [getSession(id)] returns [null], at once and after whatever is served
    later.  This holds for a [killSession] that found the session in the
    store of some moment of a history and resumed after other requests
    had been served while [close()] was pending, and so for the one that
    is not interrupted, which is that call followed at once by its
    resumption. *)
Theorem terminated_session_never_returns
  (before during after : list request) (sessionId : string)
  (p : kill_pending) (closed : settled unit) :
  NoDup (generated (before ++ during ++ after)) ->
  let started := fst (serve before new_BrowserManager) in
  fst (killSession_call sessionId started) = inr p ->
  let resumed := killSession_settle p closed (fst (serve during started)) in
  snd (fst resumed) = true
  /\ getSession sessionId (fst (fst resumed)) = None
  /\ getSession sessionId (fst (serve after (fst (fst resumed)))) = None
  /\ (forall close,
        killSession close sessionId started =
          (fst (fst (killSession_settle p (close (server (kp_session p)))
                       started)),
           true,
           snd (killSession_call sessionId started)
             ++ snd (killSession_settle p (close (server (kp_session p)))
                       started))).
Proof.
  intros Hgen started Hcall resumed. subst resumed.
  unfold killSession_call in Hcall.
  destruct (JsMap.get sessionId (sessions started)) as [s|] eqn:Hget;
    [| discriminate Hcall].
  cbn [fst] in Hcall. injection Hcall as <-.
  cbn [killSession_settle kp_sessionId kp_session fst snd].
  assert (Hfresh : ~ In sessionId
                     (assigned_ids (map to_action (during ++ after)))).
  { intros Hlater.
    apply assigned_generated in Hlater as (n2 & E2 & Hn2).
    apply get_some_entries in Hget.
    apply (stored_was_registered before []) in Hget.
    rewrite app_nil_r in Hget.
    apply registered_assigned, assigned_generated in Hget
      as (n1 & E1 & Hn1).
    cbn [fst] in E1. rewrite E1 in E2. apply sess_prefix_inj in E2. subst n2.
    rewrite generated_app in Hgen.
    revert Hgen Hn1 Hn2. generalize (generated before) as g1.
    generalize (generated (during ++ after)) as g2. clear.
    intros g2 g1. induction g1 as [|a g1 IH]; simpl; [tauto |].
    intros Hnd [->|Hin] Hn2.
    - inversion Hnd as [|? ? Hn _]; subst. apply Hn.
      apply in_or_app. now right.
    - inversion Hnd; subst. auto. }
  assert (Hwf : JsMap.wf (sessions (fst (serve during started)))).
  { subst started. rewrite serve_run.
    apply run_wf. apply reachable_wf. apply serve_reachable. }
  assert (Hgone : JsMap.get sessionId
                    (JsMap.delete sessionId
                       (sessions (fst (serve during started)))) = None)
    by now apply get_delete_same.
  repeat split.
  - apply getSession_none. exact Hgone.
  - apply getSession_none. rewrite serve_run. apply run_keeps_absent.
    + exact Hgone.
    + intros Hin. apply Hfresh. rewrite map_app.
      clear - Hin. induction (map to_action during) as [|a l IH]; simpl; auto.
      destruct a as [k o [srv|e] now|q c]; simpl; auto.
  - intros close. unfold killSession, killSession_call. rewrite Hget.
    reflexivity.
Qed.

Lemma terminated_session_never_returns_witness :
  NoDup (generated ([first_post] ++ [second_post] ++ [third_post]))
  /\ fst (killSession_call "sess_V1StGXR8_Z5jdHi6"
            (fst (serve [first_post] new_BrowserManager)))
     = inr {| kp_sessionId := "sess_V1StGXR8_Z5jdHi6";
              kp_session := new_session no_options (sample_server 1)
                              "2026-01-29T00:00:00.000Z" |}
  /\ getSession "sess_V1StGXR8_Z5jdHi6"
       (fst (serve [third_post]
               (fst (fst (killSession_settle
                            {| kp_sessionId := "sess_V1StGXR8_Z5jdHi6";
                               kp_session := new_session no_options
                                               (sample_server 1)
                                               "2026-01-29T00:00:00.000Z" |}
                            (Rejected {| message := "Target closed" |})
                            (fst (serve [second_post]
                                    (fst (serve [first_post]
                                            new_BrowserManager)))))))))
     = None.
Proof.
  assert (Hgen : NoDup (generated
                          ([first_post] ++ [second_post] ++ [third_post]))).
  { repeat constructor; simpl; intuition discriminate. }
  split; [exact Hgen | split; [reflexivity |]].
  exact (proj1 (proj2 (proj2
           (terminated_session_never_returns [first_post] [second_post]
              [third_post] "sess_V1StGXR8_Z5jdHi6" _
              (Rejected {| message := "Target closed" |}) Hgen eq_refl)))).
Defined.

(** * Further properties of the code *)

(** ** More facts about the [Map] model *)

Lemma set_absent {V} key (v : V) (m : JsMap.t V) :
  JsMap.get key m = None -> JsMap.set key v m = m ++ [Some (key, v)].
Proof.
  induction m as [|[[k0 w]|] rest IH]; simpl; auto.
  - destruct (String.eqb k0 key); [discriminate |].
    intros H. now rewrite IH.
  - intros H. now rewrite IH.
Qed.

Lemma entries_app {V} (m1 m2 : JsMap.t V) :
  JsMap.entries (m1 ++ m2) = JsMap.entries m1 ++ JsMap.entries m2.
Proof.
  induction m1 as [|[kv|] rest IH]; simpl; auto. now rewrite IH.
Qed.

Lemma delete_app_absent {V} key (m1 m2 : JsMap.t V) :
  JsMap.get key m1 = None ->
  JsMap.delete key (m1 ++ m2) = m1 ++ JsMap.delete key m2.
Proof.
  induction m1 as [|[[k0 w]|] rest IH]; simpl; auto.
  - destruct (String.eqb k0 key); [discriminate |].
    intros H. now rewrite IH.
  - intros H. now rewrite IH.
Qed.

Lemma entries_get {V} key (v : V) (m : JsMap.t V) :
  JsMap.wf m -> In (key, v) (JsMap.entries m) -> JsMap.get key m = Some v.
Proof.
  unfold JsMap.wf, JsMap.keys.
  induction m as [|[[k0 w]|] rest IH]; simpl; intros Hwf Hin.
  - contradiction.
  - inversion Hwf as [|? ? Hn Hr]; subst.
    destruct Hin as [[= -> ->]|Hin].
    + now rewrite String.eqb_refl.
    + destruct (String.eqb_spec k0 key) as [->|Hk]; [| auto].
      exfalso. apply Hn. apply in_map_iff. now exists (key, v).
  - auto.
Qed.

Lemma delete_comm {V} k1 k2 (m : JsMap.t V) :
  JsMap.delete k1 (JsMap.delete k2 m) = JsMap.delete k2 (JsMap.delete k1 m).
Proof.
  induction m as [|[[k0 w]|] rest IH]; simpl; auto.
  - destruct (String.eqb_spec k0 k2) as [E2|E2],
             (String.eqb_spec k0 k1) as [E1|E1]; simpl.
    + now subst k1 k2.
    + destruct (String.eqb_spec k0 k2); [reflexivity | contradiction].
    + destruct (String.eqb_spec k0 k1); [reflexivity | contradiction].
    + destruct (String.eqb_spec k0 k1); [contradiction |].
      destruct (String.eqb_spec k0 k2); [contradiction |].
      now rewrite IH.
  - now rewrite IH.
Qed.

Lemma size_set_le {V} key (v : V) (m : JsMap.t V) :
  JsMap.size (JsMap.set key v m) <= S (JsMap.size m).
Proof. rewrite size_set. destruct (JsMap.get key m); lia. Qed.

Lemma size_delete_le {V} key (m : JsMap.t V) :
  JsMap.size (JsMap.delete key m) <= JsMap.size m.
Proof.
  induction m as [|[[k0 w]|] rest IH]; simpl; auto.
  destruct (String.eqb k0 key); simpl; lia.
Qed.

Lemma size_zero_all_empty {V} (m : JsMap.t V) :
  JsMap.size m = 0 -> all_empty m.
Proof.
  induction m as [|[kv|] rest IH]; simpl; intros H.
  - constructor.
  - discriminate.
  - constructor; [reflexivity | exact (IH H)].
Qed.

Lemma map_none_all_empty {V} (m : JsMap.t V) :
  all_empty m -> map (fun _ => None) m = m.
Proof. induction 1 as [|e l He _ IH]; simpl; auto. subst e. now rewrite IH. Qed.

(** ** Creating next to what is there *)

(** X1: [createSession] and [killSession] touch one id only: whatever the
    driver answers, [getSession] of any other id returns afterwards what
    it returned before. *)
Theorem other_sessions_untouched
  (close : server_handle -> settled unit) (sessionId other : string)
  (o : session_request) (launched : settled server_handle) (now : string)
  (mgr : BrowserManager) :
  sessionId <> other ->
  getSession other (fst (fst (createSession sessionId o launched now mgr)))
    = getSession other mgr
  /\ getSession other (fst (fst (killSession close sessionId mgr)))
     = getSession other mgr.
Proof.
  intros Hne. split; unfold getSession.
  - destruct launched as [srv|e]; simpl; [| reflexivity].
    now rewrite get_set_other.
  - destruct (JsMap.get sessionId (sessions mgr)) as [s|] eqn:E.
    + rewrite (killSession_present close _ s _ E). simpl.
      now rewrite get_delete_other.
    + now rewrite (killSession_absent close _ _ E).
Qed.

Lemma other_sessions_untouched_witness :
  "sess_b" <> "sess_a"
  /\ getSession "sess_a"
       (fst (fst (createSession "sess_b" no_options
                    (Fulfilled (sample_server 2)) "2026-01-29T00:00:01.000Z"
                    one_session)))
     = getSession "sess_a" one_session.
Proof.
  assert (H : "sess_b" <> "sess_a") by discriminate.
  split; [exact H |].
  exact (proj1 (other_sessions_untouched close_ok "sess_b" "sess_a" no_options
                  (Fulfilled (sample_server 2)) "2026-01-29T00:00:01.000Z"
                  one_session H)).
Defined.

(** X2: a session created under an id that is not in the registry is
    listed last: [listSessions] afterwards is the former list followed by
    the new session, and [getActiveCount] has grown by one. *)
Theorem createSession_fresh_id_appends
  (sessionId : string) (o : session_request) (srv : server_handle)
  (now : string) (mgr : BrowserManager) :
  JsMap.get sessionId (sessions mgr) = None ->
  let mgr' := fst (fst (createSession sessionId o (Fulfilled srv) now mgr)) in
  listSessions mgr' =
    listSessions mgr ++ [info_of sessionId (new_session o srv now)]
  /\ getActiveCount mgr' = S (getActiveCount mgr).
Proof.
  intros Hget mgr'. subst mgr'. unfold listSessions, getActiveCount. simpl.
  split.
  - rewrite set_absent by assumption.
    now rewrite entries_app, map_app.
  - rewrite size_set. now rewrite Hget.
Qed.

Lemma createSession_fresh_id_appends_witness :
  JsMap.get "sess_b" (sessions one_session) = None
  /\ map si_sessionId
       (listSessions
          (fst (fst (createSession "sess_b" no_options
                       (Fulfilled (sample_server 2))
                       "2026-01-29T00:00:01.000Z" one_session))))
     = ["sess_a"; "sess_b"].
Proof.
  split; [reflexivity |].
  exact (f_equal (map si_sessionId)
           (proj1 (createSession_fresh_id_appends "sess_b" no_options
                     (sample_server 2) "2026-01-29T00:00:01.000Z"
                     one_session eq_refl))).
Defined.

(** X3: a session created under an id that is already in the registry
    takes the place of the one stored there: the ids are listed in the
    same order as before, the count is unchanged, [getSession] returns the
    new session, and the only call made outside is the launch, so that
    [close()] is not called on the server that was replaced. *)
Theorem createSession_same_id_replaces
  (sessionId : string) (o : session_request) (srv : server_handle)
  (now : string) (old : session) (mgr : BrowserManager) :
  JsMap.get sessionId (sessions mgr) = Some old ->
  let r := createSession sessionId o (Fulfilled srv) now mgr in
  map si_sessionId (listSessions (fst (fst r)))
    = map si_sessionId (listSessions mgr)
  /\ getActiveCount (fst (fst r)) = getActiveCount mgr
  /\ getSession sessionId (fst (fst r))
     = Some (info_of sessionId (new_session o srv now))
  /\ closed_servers (snd r) = [].
Proof.
  intros Hget r. subst r. unfold listSessions, getActiveCount, getSession.
  simpl. repeat split.
  - rewrite !map_map. simpl.
    change (JsMap.keys (JsMap.set sessionId (new_session o srv now)
                          (sessions mgr)) = JsMap.keys (sessions mgr)).
    rewrite keys_set. now rewrite Hget.
  - rewrite size_set. now rewrite Hget.
  - now rewrite get_set_same.
Qed.

Lemma createSession_same_id_replaces_witness :
  JsMap.get "sess_a" (sessions one_session)
    = Some (new_session no_options (sample_server 1)
              "2026-01-29T00:00:00.000Z")
  /\ getActiveCount
       (fst (fst (createSession "sess_a" no_options
                    (Fulfilled (sample_server 2))
                    "2026-01-29T00:00:01.000Z" one_session)))
     = 1.
Proof.
  split; [reflexivity |].
  exact (proj1 (proj2 (createSession_same_id_replaces "sess_a" no_options
                         (sample_server 2) "2026-01-29T00:00:01.000Z" _
                         one_session eq_refl))).
Defined.

(** ** Listing and looking up *)

(** X4: in every reachable state the list and the lookup agree: a session
    is among those [listSessions] returns exactly when [getSession] of its
    id returns it. *)
Theorem list_and_get_agree (mgr : BrowserManager) (info : session_info) :
  reachable mgr ->
  (In info (listSessions mgr)
   <-> getSession (si_sessionId info) mgr = Some info).
Proof.
  intros Hreach. unfold listSessions, getSession. split.
  - intros Hin. apply in_map_iff in Hin as ([k s] & <- & Hin). simpl.
    rewrite (entries_get k s); auto with jsmap.
  - destruct (JsMap.get (si_sessionId info) (sessions mgr)) as [s|] eqn:E;
      [| discriminate].
    intros [= <-]. apply in_map_iff.
    exists (si_sessionId info, s). split; [reflexivity |].
    simpl. now apply get_some_entries.
Qed.

Lemma list_and_get_agree_witness :
  reachable one_session
  /\ (In (info_of "sess_a" (new_session no_options (sample_server 1)
                              "2026-01-29T00:00:00.000Z"))
         (listSessions one_session)
      <-> getSession "sess_a" one_session
          = Some (info_of "sess_a" (new_session no_options (sample_server 1)
                                      "2026-01-29T00:00:00.000Z"))).
Proof.
  split; [exact one_session_reachable |].
  exact (list_and_get_agree one_session
           (info_of "sess_a" (new_session no_options (sample_server 1)
                                "2026-01-29T00:00:00.000Z"))
           one_session_reachable).
Defined.

Lemma reachable_sessions_inv (P : session -> Prop) :
  (forall o srv now, P (new_session o srv now)) ->
  forall mgr, reachable mgr ->
  forall kv, In kv (JsMap.entries (sessions mgr)) -> P (snd kv).
Proof.
  intros Hnew mgr [acts <-].
  assert (G : forall m,
             (forall kv, In kv (JsMap.entries (sessions m)) -> P (snd kv)) ->
             forall kv, In kv (JsMap.entries (sessions (run acts m))) ->
                        P (snd kv)).
  { induction acts as [|a acts IH]; intros m Hm; simpl; auto.
    apply IH. intros kv.
    destruct a as [k o [srv|e] now|p closed]; simpl; auto.
    - intros Hin. apply entries_set_in in Hin as [->|Hin]; [apply Hnew | auto].
    - intros Hin. apply entries_delete_in in Hin. auto. }
  apply G. intros kv [].
Qed.

(** X5: in every reachable state the endpoint listed for a session is the
    one its own server reports, and every listed session has status
    ["active"]: neither field is written after creation. *)
Theorem listed_fields_as_created (mgr : BrowserManager) :
  reachable mgr ->
  map si_wsEndpoint (listSessions mgr) = map ws (owned_servers mgr)
  /\ Forall (fun info => si_status info = "active") (listSessions mgr).
Proof.
  intros Hreach. unfold listSessions, owned_servers. split.
  - rewrite !map_map. apply map_ext_in. intros kv Hin. simpl.
    exact (reachable_sessions_inv (fun s => wsEndpoint s = ws (server s))
             (fun _ _ _ => eq_refl) mgr Hreach kv Hin).
  - apply Forall_forall. intros info Hin.
    apply in_map_iff in Hin as (kv & <- & Hin). simpl.
    exact (reachable_sessions_inv (fun s => status s = "active")
             (fun _ _ _ => eq_refl) mgr Hreach kv Hin).
Qed.

Lemma listed_fields_as_created_witness :
  reachable (run two_sessions new_BrowserManager)
  /\ map si_wsEndpoint (listSessions (run two_sessions new_BrowserManager))
     = map ws [sample_server 1; sample_server 2].
Proof.
  assert (H : reachable (run two_sessions new_BrowserManager))
    by (exists two_sessions; reflexivity).
  split; [exact H |].
  exact (proj1 (listed_fields_as_created _ H)).
Defined.

(** ** The request body *)

(** X6: the [userAgent] of a request has no effect at all: whatever it is
    set to, [createSession] and [POST /sessions] launch with the same
    options, store the same session, answer the same and print the
    same. *)
Theorem userAgent_is_ignored
  (ua : option string) (sessionId nano : string) (o : session_request)
  (launched : settled server_handle) (now : string) (mgr : BrowserManager) :
  createSession sessionId (with_userAgent ua o) launched now mgr
    = createSession sessionId o launched now mgr
  /\ post_sessions nano (with_userAgent ua o) launched now mgr
     = post_sessions nano o launched now mgr.
Proof.
  split; destruct launched as [srv|e]; reflexivity.
Qed.

(** ** The routes *)

(** X8: a session created through [POST /sessions] can be read back: the
    201 answer carries the id ["sess_"] followed by the generated string,
    and [GET /sessions/:id] with that id answers 200 with the same
    endpoint (also as [cdpUrl]), creation time and status, and with the
    options as stored. *)
Theorem post_then_get
  (nano : string) (body : session_request) (srv : server_handle)
  (now : string) (mgr : BrowserManager) :
  let r := post_sessions nano body (Fulfilled srv) now mgr in
  snd (fst r) =
    Http201 {| cb_id := ("sess_" ++ nano)%string;
               cb_wsEndpoint := ws srv;
               cb_cdpUrl := ws srv;
               cb_createdAt := now;
               cb_status := "active" |}
  /\ get_session_by_id ("sess_" ++ nano)%string (fst (fst r)) =
     Found200 {| db_id := ("sess_" ++ nano)%string;
                 db_wsEndpoint := ws srv;
                 db_cdpUrl := ws srv;
                 db_createdAt := now;
                 db_status := "active";
                 db_options :=
                   {| so_headless :=
                        match rq_headless body with
                        | Some b => b
                        | None => true
                        end;
                      so_proxy :=
                        match rq_proxy body with
                        | Some _ => true
                        | None => false
                        end;
                      so_viewport :=
                        match rq_viewport body with
                        | Some v => v
                        | None => {| width := 1920; height := 1080 |}
                        end |} |}.
Proof.
  intros r. subst r. split; [reflexivity |].
  unfold get_session_by_id, getSession. cbn [post_sessions
    createSession_settle fst snd sessions].
  rewrite get_set_same.
  destruct body as [[h|] p [v|] ua]; reflexivity.
Qed.

(** X9: [DELETE /sessions/:id] in a reachable state.  For an id that is
    not stored it answers 404, leaves the registry alone and prints one
    line.  For a stored id it answers 200; after that [GET] of the id and
    a second [DELETE] answer 404, and [GET /] reports one session
    less. *)
Theorem delete_route
  (close close2 : server_handle -> settled unit) (sessionId : string)
  (mgr : BrowserManager) :
  reachable mgr ->
  match getSession sessionId mgr with
  | None =>
      delete_session close sessionId mgr =
        (mgr, Missing404 "Session not found",
         [ConsoleLog ("Killing session " ++ sessionId ++ "...")%string])
  | Some _ =>
      let r := delete_session close sessionId mgr in
      snd (fst r) =
        Deleted200 ("Session " ++ sessionId ++ " terminated")%string
      /\ get_session_by_id sessionId (fst (fst r))
         = NotFound404 "Session not found"
      /\ snd (fst (delete_session close2 sessionId (fst (fst r))))
         = Missing404 "Session not found"
      /\ S (rb_activeSessions (get_root (fst (fst r))))
         = rb_activeSessions (get_root mgr)
  end.
Proof.
  intros Hreach. unfold getSession.
  destruct (JsMap.get sessionId (sessions mgr)) as [s|] eqn:E.
  - assert (Hgone : JsMap.get sessionId
                      (JsMap.delete sessionId (sessions mgr)) = None)
      by (apply get_delete_same; auto with jsmap).
    unfold delete_session. rewrite (killSession_present close _ s _ E).
    cbn [fst snd]. repeat split.
    + unfold get_session_by_id, getSession. cbn [sessions]. now rewrite Hgone.
    + rewrite killSession_absent by exact Hgone. reflexivity.
    + unfold get_root, getActiveCount. cbn [rb_activeSessions sessions].
      now apply size_delete_present with s.
  - unfold delete_session. now rewrite (killSession_absent close _ _ E).
Qed.

Lemma delete_route_witness :
  reachable one_session
  /\ snd (fst (delete_session close_fails "sess_a" one_session))
     = Deleted200 "Session sess_a terminated".
Proof.
  split; [exact one_session_reachable |].
  exact (proj1 (delete_route close_fails close_ok "sess_a" one_session
                  one_session_reachable)).
Defined.

(** X10: the read-only routes describe the same registry: the [count] of
    [GET /sessions] is the number of sessions it lists and the
    [activeSessions] of [GET /], and an id is listed exactly when
    [GET /sessions/:id] answers 200 for it. *)
Theorem read_routes_agree (mgr : BrowserManager) (sessionId : string) :
  lb_count (get_sessions mgr) = length (lb_sessions (get_sessions mgr))
  /\ lb_count (get_sessions mgr) = rb_activeSessions (get_root mgr)
  /\ (In sessionId (map ls_id (lb_sessions (get_sessions mgr)))
      <-> exists session, get_session_by_id sessionId mgr = Found200 session).
Proof.
  unfold get_sessions, get_root, listSessions, getActiveCount.
  cbn [lb_count lb_sessions rb_activeSessions]. repeat split.
  - now rewrite !length_map.
  - rewrite length_map. symmetry. apply size_entries.
  - rewrite !map_map. cbn [ls_id info_of si_sessionId].
    change (In sessionId (JsMap.keys (sessions mgr)) ->
            exists session, get_session_by_id sessionId mgr = Found200 session).
    intros Hin. unfold get_session_by_id, getSession.
    destruct (JsMap.get sessionId (sessions mgr)) eqn:E; [eauto |].
    apply get_none_keys in E. contradiction.
  - rewrite !map_map. cbn [ls_id info_of si_sessionId].
    change ((exists session,
               get_session_by_id sessionId mgr = Found200 session) ->
            In sessionId (JsMap.keys (sessions mgr))).
    intros [session H]. unfold get_session_by_id, getSession in H.
    destruct (JsMap.get sessionId (sessions mgr)) as [s|] eqn:E;
      [| discriminate H].
    apply get_some_entries in E. unfold JsMap.keys.
    apply in_map_iff. now exists (sessionId, s).
Qed.

(** ** Terminating *)

Lemma killSession_cases close sessionId mgr :
  killSession close sessionId mgr =
  match JsMap.get sessionId (sessions mgr) with
  | Some s =>
      ({| sessions := JsMap.delete sessionId (sessions mgr) |}, true,
       close_effects close (sessionId, s))
  | None => (mgr, false, [])
  end.
Proof.
  destruct (JsMap.get sessionId (sessions mgr)) as [s|] eqn:E.
  - now apply killSession_present.
  - now apply killSession_absent.
Qed.

Lemma closed_servers_app eff1 eff2 :
  closed_servers (eff1 ++ eff2) = closed_servers eff1 ++ closed_servers eff2.
Proof.
  induction eff1 as [|[lo|s|l|l d] rest IH]; simpl; auto. now rewrite IH.
Qed.

Lemma closed_servers_close_effects close kv :
  closed_servers (close_effects close kv) = [server (snd kv)].
Proof.
  unfold close_effects. simpl. now destruct (close (server (snd kv))).
Qed.

Lemma closed_servers_all close (l : list (string * session)) :
  closed_servers (flat_map (close_effects close) l)
  = map (fun kv => server (snd kv)) l.
Proof.
  induction l as [|kv l IH]; cbn [flat_map map]; auto.
  now rewrite closed_servers_app, closed_servers_close_effects, IH.
Qed.

(** X11: two terminations of the same stored id that overlap both
    succeed.  Each of them, started before the other has resumed, finds
    the session and calls [close()] on its server, so the server is closed
    twice; each returns [true] when it resumes, the second resumption
    leaving the registry as the first left it. *)
Theorem overlapping_kills_both_succeed
  (closed1 closed2 : settled unit) (sessionId : string) (s : session)
  (mgr : BrowserManager) :
  reachable mgr ->
  JsMap.get sessionId (sessions mgr) = Some s ->
  let p := {| kp_sessionId := sessionId; kp_session := s |} in
  let first := killSession_settle p closed1 mgr in
  let second := killSession_settle p closed2 (fst (fst first)) in
  fst (killSession_call sessionId mgr) = inr p
  /\ closed_servers (snd (killSession_call sessionId mgr)
                       ++ snd (killSession_call sessionId mgr))
     = [server s; server s]
  /\ snd (fst first) = true
  /\ snd (fst second) = true
  /\ fst (fst second) = fst (fst first)
  /\ getSession sessionId (fst (fst second)) = None.
Proof.
  intros Hreach Hget p first second. subst p first second.
  assert (Hgone : JsMap.get sessionId
                    (JsMap.delete sessionId (sessions mgr)) = None)
    by (apply get_delete_same; auto with jsmap).
  unfold killSession_call. rewrite Hget. cbn. repeat split.
  - now rewrite delete_absent.
  - apply getSession_none. cbn. now rewrite delete_absent.
Qed.

Lemma overlapping_kills_both_succeed_witness :
  reachable one_session
  /\ JsMap.get "sess_a" (sessions one_session)
     = Some (new_session no_options (sample_server 1)
               "2026-01-29T00:00:00.000Z")
  /\ closed_servers (snd (killSession_call "sess_a" one_session)
                       ++ snd (killSession_call "sess_a" one_session))
     = [sample_server 1; sample_server 1].
Proof.
  split; [exact one_session_reachable | split; [reflexivity |]].
  exact (proj1 (proj2 (overlapping_kills_both_succeed
                         (Fulfilled tt) (Fulfilled tt) "sess_a" _ one_session
                         one_session_reachable eq_refl))).
Defined.

(** X12: terminating two different ids one after the other gives the same
    registry, the same return values and the same calls per id in either
    order. *)
Theorem kill_order_is_irrelevant
  (close : server_handle -> settled unit) (id1 id2 : string)
  (mgr : BrowserManager) :
  id1 <> id2 ->
  let a := killSession close id1 mgr in
  let ab := killSession close id2 (fst (fst a)) in
  let b := killSession close id2 mgr in
  let ba := killSession close id1 (fst (fst b)) in
  fst (fst ab) = fst (fst ba)
  /\ (snd (fst a), snd a) = (snd (fst ba), snd ba)
  /\ (snd (fst b), snd b) = (snd (fst ab), snd ab).
Proof.
  intros Hne a ab b ba. subst a ab b ba.
  rewrite (killSession_cases close id1 mgr), (killSession_cases close id2 mgr).
  destruct (JsMap.get id1 (sessions mgr)) as [s1|] eqn:E1;
    destruct (JsMap.get id2 (sessions mgr)) as [s2|] eqn:E2;
    cbn [fst snd]; rewrite !killSession_cases; cbn [sessions];
    rewrite ?get_delete_other by congruence; rewrite ?E1, ?E2;
    cbn [fst snd]; repeat split.
  now rewrite delete_comm.
Qed.

Lemma kill_order_is_irrelevant_witness :
  "sess_a" <> "sess_b"
  /\ fst (fst (killSession close_ok "sess_b"
                 (fst (fst (killSession close_ok "sess_a"
                              (run two_sessions new_BrowserManager))))))
     = fst (fst (killSession close_ok "sess_a"
                   (fst (fst (killSession close_ok "sess_b"
                                (run two_sessions new_BrowserManager)))))).
Proof.
  assert (H : "sess_a" <> "sess_b") by discriminate.
  split; [exact H |].
  exact (proj1 (kill_order_is_irrelevant close_ok "sess_a" "sess_b"
                  (run two_sessions new_BrowserManager) H)).
Defined.

(** X13: creating a session under an id that is not in the registry and
    terminating it again gives back what was there: [killSession] returns
    [true] after calling [close()] on the very server that was launched,
    and [listSessions] and [getActiveCount] are as before the creation. *)
Theorem create_then_kill_restores
  (close : server_handle -> settled unit) (sessionId : string)
  (o : session_request) (srv : server_handle) (now : string)
  (mgr : BrowserManager) :
  JsMap.get sessionId (sessions mgr) = None ->
  let created := fst (fst (createSession sessionId o (Fulfilled srv) now mgr)) in
  let r := killSession close sessionId created in
  snd (fst r) = true
  /\ closed_servers (snd r) = [srv]
  /\ listSessions (fst (fst r)) = listSessions mgr
  /\ getActiveCount (fst (fst r)) = getActiveCount mgr.
Proof.
  intros Hget created r. subst created r.
  rewrite killSession_cases. cbn [createSession createSession_settle fst
    sessions]. rewrite get_set_same. cbn [fst snd].
  assert (E : JsMap.entries
                (JsMap.delete sessionId
                   (JsMap.set sessionId (new_session o srv now) (sessions mgr)))
              = JsMap.entries (sessions mgr)).
  { rewrite set_absent by assumption.
    rewrite delete_app_absent by assumption. cbn [JsMap.delete].
    rewrite String.eqb_refl, entries_app. cbn [JsMap.entries].
    apply app_nil_r. }
  repeat split.
  - apply closed_servers_close_effects.
  - unfold listSessions. cbn [sessions]. now rewrite E.
  - unfold getActiveCount. cbn [sessions]. now rewrite !size_entries, E.
Qed.

Lemma create_then_kill_restores_witness :
  JsMap.get "sess_b" (sessions one_session) = None
  /\ listSessions
       (fst (fst (killSession close_fails "sess_b"
                    (fst (fst (createSession "sess_b" no_options
                                 (Fulfilled (sample_server 2))
                                 "2026-01-29T00:00:01.000Z" one_session))))))
     = listSessions one_session.
Proof.
  split; [reflexivity |].
  exact (proj1 (proj2 (proj2 (create_then_kill_restores close_fails "sess_b"
                                no_options (sample_server 2)
                                "2026-01-29T00:00:01.000Z" one_session
                                eq_refl)))).
Defined.

Lemma run_size_bound acts : forall mgr,
  JsMap.size (sessions (run acts mgr))
  <= JsMap.size (sessions mgr) + length (assigned_ids acts).
Proof.
  induction acts as [|a acts IH]; intros mgr; simpl; [lia |].
  specialize (IH (exec a mgr)).
  destruct a as [k o [srv|e] now|p closed]; simpl in *.
  - pose proof (size_set_le k (new_session o srv now) (sessions mgr)). lia.
  - lia.
  - pose proof (size_delete_le (kp_sessionId p) (sessions mgr)). lia.
Qed.

(** X14: however requests interleave, the number of sessions in the
    registry never exceeds the number of creations that succeeded. *)
Theorem count_bounded_by_creations (acts : list action) :
  getActiveCount (run acts new_BrowserManager) <= length (assigned_ids acts).
Proof.
  unfold getActiveCount.
  pose proof (run_size_bound acts new_BrowserManager) as H.
  simpl in H. exact H.
Qed.

(** ** Shutting down *)

Lemma kill_each_drains close rest : forall pre,
  all_empty pre ->
  kill_each close (JsMap.keys rest) {| sessions := pre ++ rest |} =
  ({| sessions := pre ++ map (fun _ => None) rest |},
   flat_map (close_effects close) (JsMap.entries rest)).
Proof.
  induction rest as [|[[k s]|] rest IH]; intros pre Hpre.
  - reflexivity.
  - change (JsMap.keys (Some (k, s) :: rest)) with (k :: JsMap.keys rest).
    cbn [kill_each]. rewrite killSession_cases. cbn [sessions].
    rewrite (get_skip_empty k pre) by exact Hpre. cbn [JsMap.get].
    rewrite String.eqb_refl.
    rewrite (delete_skip_empty k pre) by exact Hpre. cbn [JsMap.delete].
    rewrite String.eqb_refl.
    rewrite (app_cons_shift pre _ rest).
    rewrite IH by now apply all_empty_snoc.
    cbn [map JsMap.entries flat_map]. now rewrite <- app_assoc.
  - change (JsMap.keys (None :: rest)) with (JsMap.keys rest).
    rewrite (app_cons_shift pre _ rest).
    rewrite IH by now apply all_empty_snoc.
    cbn [map JsMap.entries]. now rewrite <- app_assoc.
Qed.

Lemma cleanup_result close mgr :
  cleanup close mgr =
  Some ({| sessions := map (fun _ => None) (sessions mgr) |},
        ConsoleLog
          ("Cleaning up "
             ++ number_to_string (Z.of_nat (JsMap.size (sessions mgr)))
             ++ " browser sessions...")%string
        :: flat_map (close_effects close) (JsMap.entries (sessions mgr))).
Proof.
  unfold cleanup, cleanup_with. destruct mgr as [slots]. cbn [sessions].
  pose proof (cleanup_loop_drains close slots [] (length slots)
                (Forall_nil _) (le_n _)) as H.
  cbn [app length] in H. now rewrite H.
Qed.

(** X15: [shutdown], when no other request is served and no second
    signal arrives while it runs, gets to [process.exit(0)] having called
    [close()] exactly once on the server of every session in the
    registry, in the order the sessions were inserted; a [close()] that
    fails does not keep it from closing the rest or from exiting with
    code 0. *)
Theorem shutdown_closes_all_then_exits
  (close : server_handle -> settled unit) (mgr : BrowserManager) :
  exists eff,
    shutdown close mgr =
      Some (Outside (ConsoleLog (String "010"%char "Shutting down..."))
              :: map Outside eff ++ [ProcessExit 0])
    /\ closed_servers eff = owned_servers mgr.
Proof.
  eexists. unfold shutdown. rewrite cleanup_result. split; [reflexivity |].
  cbn [closed_servers]. apply closed_servers_all.
Qed.

(** X16: [cleanup] does what terminating every listed session in list
    order does: it leaves the registry that [killSession], called for each
    id [listSessions] returns in turn, leaves, and after its first log
    line makes the same calls. *)
Theorem cleanup_is_kill_each
  (close : server_handle -> settled unit) (mgr : BrowserManager) :
  let ids := map si_sessionId (listSessions mgr) in
  cleanup close mgr =
    Some (fst (kill_each close ids mgr),
          ConsoleLog
            ("Cleaning up "
               ++ number_to_string (Z.of_nat (getActiveCount mgr))
               ++ " browser sessions...")%string
          :: snd (kill_each close ids mgr)).
Proof.
  intros ids. subst ids. rewrite cleanup_result.
  assert (E : map si_sessionId (listSessions mgr) = JsMap.keys (sessions mgr)).
  { unfold listSessions, JsMap.keys. rewrite map_map. reflexivity. }
  rewrite E. destruct mgr as [slots]. cbn [sessions].
  pose proof (kill_each_drains close slots [] (Forall_nil _)) as H.
  cbn [app] in H. now rewrite H.
Qed.

(** X17: on a registry without sessions, new or drained, [cleanup] calls
    nothing on the driver, leaves the registry as it is and prints the
    count 0 only; [shutdown] then exits with code 0 after its two log
    lines. *)
Theorem cleanup_of_empty_registry
  (close : server_handle -> settled unit) (mgr : BrowserManager) :
  getActiveCount mgr = 0 ->
  cleanup close mgr =
    Some (mgr, [ConsoleLog "Cleaning up 0 browser sessions..."])
  /\ shutdown close mgr =
     Some [Outside (ConsoleLog (String "010"%char "Shutting down..."));
           Outside (ConsoleLog "Cleaning up 0 browser sessions...");
           ProcessExit 0].
Proof.
  unfold getActiveCount. intros Hsize.
  assert (Hempty : all_empty (sessions mgr))
    by now apply size_zero_all_empty.
  assert (E : cleanup close mgr =
              Some (mgr, [ConsoleLog "Cleaning up 0 browser sessions..."])).
  { rewrite cleanup_result, Hsize.
    rewrite (entries_all_empty _ Hempty), (map_none_all_empty _ Hempty).
    now destruct mgr. }
  split; [exact E |].
  unfold shutdown. now rewrite E.
Qed.

Lemma cleanup_of_empty_registry_witness :
  getActiveCount {| sessions := [None; None] |} = 0
  /\ cleanup close_fails {| sessions := [None; None] |} =
     Some ({| sessions := [None; None] |},
           [ConsoleLog "Cleaning up 0 browser sessions..."]).
Proof.
  split; [reflexivity |].
  exact (proj1 (cleanup_of_empty_registry close_fails
                  {| sessions := [None; None] |} eq_refl)).
Defined.

(** ** What is launched, what is stored, what is left behind *)

(** X18: what a stored session reports about its launch is what was
    launched: the [headless] flag passed to the driver is the one stored,
    the stored [proxy] flag is [true] exactly when a proxy (the requested
    one, with its credentials) was passed to the driver, and the last
    launch argument is [--window-size=] followed by the stored viewport's
    width and height. *)
Theorem stored_options_describe_launch
  (sessionId : string) (o : session_request) (srv : server_handle)
  (now : string) (mgr : BrowserManager) :
  let r := createSession sessionId o (Fulfilled srv) now mgr in
  exists lo stored,
    snd r = [LaunchServer lo]
    /\ option_map si_options (getSession sessionId (fst (fst r)))
       = Some stored
    /\ lo_headless lo = so_headless stored
    /\ lo_proxy lo = rq_proxy o
    /\ so_proxy stored
       = match lo_proxy lo with Some _ => true | None => false end
    /\ last (lo_args lo) EmptyString
       = ("--window-size=" ++ number_to_string (width (so_viewport stored))
            ++ "," ++ number_to_string (height (so_viewport stored)))%string.
Proof.
  intros r. subst r.
  exists (launch_options o), (options (new_session o srv now)).
  unfold getSession. cbn [createSession createSession_settle
    createSession_call fst snd sessions].
  rewrite get_set_same. repeat split;
    unfold launch_options, new_session;
    cbn [lo_proxy options so_proxy];
    unfold proxy_flag, proxy_of;
    destruct (rq_proxy o) as [[sv un pw]|]; reflexivity.
Qed.

Lemma entries_after_replace {V} key (v old : V) (m : JsMap.t V) kv :
  JsMap.wf m ->
  JsMap.get key m = Some old ->
  In kv (JsMap.entries (JsMap.set key v m)) ->
  kv = (key, v) \/ (In kv (JsMap.entries m) /\ fst kv <> key).
Proof.
  unfold JsMap.wf, JsMap.keys.
  induction m as [|[[k0 w]|] rest IH]; simpl; intros Hwf Hget Hin.
  - discriminate.
  - inversion Hwf as [|? ? Hn Hr]; subst.
    destruct (String.eqb_spec k0 key) as [->|Hk]; simpl in Hin.
    + destruct Hin as [<-|Hin]; [now left | right].
      split; [now right |].
      intros <-. apply Hn. apply in_map_iff. now exists kv.
    + destruct Hin as [<-|Hin]; [right; split; [now left | exact Hk] |].
      destruct (IH Hr Hget Hin) as [->|[H1 H2]]; [now left | right].
      split; [now right | exact H2].
  - destruct (IH Hwf Hget Hin) as [->|[H1 H2]]; [now left | now right].
Qed.

(** X19: a server whose session is replaced is left behind.  When a
    session is created under an id already in a reachable registry whose
    sessions own pairwise different servers, the server of the session
    that was stored there is owned by no entry afterwards, and a later
    [cleanup] does not call [close()] on it. *)
Theorem replaced_server_is_orphaned
  (close : server_handle -> settled unit) (sessionId : string)
  (o : session_request) (srv : server_handle) (now : string) (old : session)
  (mgr : BrowserManager) :
  reachable mgr ->
  NoDup (map handle (owned_servers mgr)) ->
  JsMap.get sessionId (sessions mgr) = Some old ->
  handle srv <> handle (server old) ->
  let mgr' := fst (fst (createSession sessionId o (Fulfilled srv) now mgr)) in
  ~ In (handle (server old)) (map handle (owned_servers mgr'))
  /\ exists final eff,
       cleanup close mgr' = Some (final, eff)
       /\ ~ In (handle (server old)) (map handle (closed_servers eff)).
Proof.
  intros Hreach Hnd Hget Hsrv mgr'. subst mgr'.
  assert (Hnot : ~ In (handle (server old))
                   (map handle
                      (owned_servers
                         (fst (fst (createSession sessionId o (Fulfilled srv)
                                      now mgr)))))).
  { unfold owned_servers. rewrite map_map. intros Hin.
    apply in_map_iff in Hin as (kv & E & Hin).
    cbn [createSession createSession_settle fst sessions] in Hin.
    apply (entries_after_replace sessionId _ old) in Hin;
      auto with jsmap.
    destruct Hin as [->|[Hin Hkey]].
    - simpl in E. contradiction.
    - apply Hkey.
      unfold owned_servers in Hnd. rewrite map_map in Hnd.
      assert (Heq : kv = (sessionId, old)).
      { apply (nodup_map_inj _ _ _ _ Hnd Hin); [| exact E].
        now apply get_some_entries. }
      now rewrite Heq. }
  split; [exact Hnot |].
  eexists. eexists. split; [apply cleanup_result |].
  cbn [closed_servers]. rewrite closed_servers_all. exact Hnot.
Qed.

Lemma replaced_server_is_orphaned_witness :
  reachable one_session
  /\ NoDup (map handle (owned_servers one_session))
  /\ JsMap.get "sess_a" (sessions one_session)
     = Some (new_session no_options (sample_server 1)
               "2026-01-29T00:00:00.000Z")
  /\ handle (sample_server 2)
     <> handle (server (new_session no_options (sample_server 1)
                          "2026-01-29T00:00:00.000Z"))
  /\ ~ In 1 (map handle
               (owned_servers
                  (fst (fst (createSession "sess_a" no_options
                               (Fulfilled (sample_server 2))
                               "2026-01-29T00:00:01.000Z" one_session))))).
Proof.
  assert (Hnd : NoDup (map handle (owned_servers one_session))).
  { simpl. constructor; [intros [] | constructor]. }
  assert (Hne : handle (sample_server 2)
     <> handle (server (new_session no_options (sample_server 1)
                          "2026-01-29T00:00:00.000Z")))
    by (simpl; discriminate).
  split; [exact one_session_reachable |].
  split; [exact Hnd |]. split; [reflexivity |]. split; [exact Hne |].
  exact (proj1 (replaced_server_is_orphaned close_ok "sess_a" no_options
                  (sample_server 2) "2026-01-29T00:00:01.000Z" _ one_session
                  one_session_reachable Hnd eq_refl Hne)).
Defined.
